(** * Request identity resolution of magnum/api/auth.py

    A shallow embedding of the authentication hook of the API front end:
    [install], [AuthHelper], [AuthProtocolWrapper] and
    [AuthInformationHook] with its [before] and [_get_roles] methods.

    Python byte strings are [string]; a header table and the WSGI
    environment are finite maps with string keys; [None]-able values are
    [option]s.  Logging, module import, exceptions and the one assignment
    to the request are made explicit in a small monad. *)

From Stdlib Require Import Ascii String List Bool Arith Lia.
From stdpp Require Import base option list strings gmap.

Local Open Scope string_scope.
Local Open Scope list_scope.

(** ** Python string primitives used by the module *)

Module PyStr.

(** [s.split(sep)] for a one-character separator: never the empty list,
    and an empty field for every separator at either end. *)
Fixpoint split (sep : ascii) (s : string) : list string :=
  match s with
  | EmptyString => [EmptyString]
  | String c s' =>
      if Ascii.eqb c sep then EmptyString :: split sep s'
      else match split sep s' with
           | [] => [String c EmptyString]
           | w :: ws => String c w :: ws
           end
  end.

(** The characters [str.strip()] removes from a byte string:
    space, tab, line feed, carriage return, vertical tab, form feed. *)
Definition isspace (c : ascii) : bool :=
  let n := nat_of_ascii c in
  (Nat.eqb n 32 || (Nat.leb 9 n && Nat.leb n 13))%bool.

Fixpoint lstrip (s : string) : string :=
  match s with
  | EmptyString => EmptyString
  | String c s' => if isspace c then lstrip s' else s
  end.

Fixpoint rstrip (s : string) : string :=
  match s with
  | EmptyString => EmptyString
  | String c s' =>
      match rstrip s' with
      | EmptyString => if isspace c then EmptyString else String c EmptyString
      | t => String c t
      end
  end.

Definition strip (s : string) : string := rstrip (lstrip s).

(** [sep.join(l)] *)
Fixpoint join (sep : string) (l : list string) : string :=
  match l with
  | [] => EmptyString
  | [x] => x
  | x :: xs => x +:+ sep +:+ join sep xs
  end.

(** Truth value of a string: the empty string is false. *)
Definition truthy (s : string) : bool :=
  match s with EmptyString => false | _ => true end.

(** *** What "comma-split" and "trimmed" mean, stated on their own

    The two relations below follow the words of the description rather
    than the code: a list of fields is a comma split of [s] when joining
    the fields with commas gives [s] back and no field holds a comma; [t]
    is the trimmed form of [w] when [w] is [t] between two runs of
    whitespace and [t] neither starts nor ends with whitespace. *)

Fixpoint mem_char (c : ascii) (w : string) : bool :=
  match w with
  | EmptyString => false
  | String d w' => (Ascii.eqb d c || mem_char c w')%bool
  end.

Fixpoint all_space (w : string) : bool :=
  match w with
  | EmptyString => true
  | String c w' => (isspace c && all_space w')%bool
  end.

Definition first_char (w : string) : option ascii :=
  match w with EmptyString => None | String c _ => Some c end.

Fixpoint last_char (w : string) : option ascii :=
  match w with
  | EmptyString => None
  | String c EmptyString => Some c
  | String _ w' => last_char w'
  end.

Definition edge_ok (o : option ascii) : Prop :=
  forall c, o = Some c -> isspace c = false.

Definition comma_split (s : string) (fields : list string) : Prop :=
  fields <> []
  /\ join "," fields = s
  /\ Forall (fun w => mem_char "," w = false) fields.

Definition trimmed (w t : string) : Prop :=
  exists a b,
    w = a +:+ t +:+ b
    /\ all_space a = true /\ all_space b = true
    /\ edge_ok (first_char t) /\ edge_ok (last_char t).

End PyStr.

(** ** The fragment of the [re] module the helper relies on

    [AuthHelper] compiles the joined pattern with [re.compile] and tests
    paths with the compiled pattern's [match], which anchors at the start
    of the string and accepts any matching prefix.  The pattern syntax
    covered here: literal characters, [.], a star on a single character,
    alternation, groups and backslash escapes of punctuation.  Anything
    else is reported as [Unsupported] instead of being guessed. *)

Module Re.

Inductive atom : Type :=
| Lit (c : ascii)
| AnyChar.

Inductive regex : Type :=
| Empty
| Chr (a : atom)
| Star (a : atom)
| Seq (r1 r2 : regex)
| Branch (r1 r2 : regex).

Inductive error : Type :=
| ReError (msg : string)
| Unsupported (c : ascii).

Inductive compiled (A : Type) : Type :=
| Ok (a : A)
| Err (e : error).

Arguments Ok {A} a.
Arguments Err {A} e.

Definition cmap {A B : Type} (f : A -> B) (x : compiled A) : compiled B :=
  match x with Ok a => Ok (f a) | Err e => Err e end.

Definition cbind {A B : Type} (x : compiled A) (f : A -> compiled B)
  : compiled B :=
  match x with Ok a => f a | Err e => Err e end.

(** *** Parsing a pattern *)

Inductive item : Type :=
| IChr (a : atom)
| IStar (a : atom)
| IGroup (r : regex).

Definition item_regex (i : item) : regex :=
  match i with IChr a => Chr a | IStar a => Star a | IGroup r => r end.

(** A frame holds the finished alternatives of the group being read and
    the items of the alternative in progress, both most recent first. *)
Record frame : Type := Frame { alts : list regex; cur : list item }.

Record pstate : Type := PState {
  base : frame;
  open_groups : list frame;
  escaped : bool
}.

Fixpoint seq_items (l : list item) : regex :=
  match l with
  | [] => Empty
  | [i] => item_regex i
  | i :: l' => Seq (item_regex i) (seq_items l')
  end.

Fixpoint branch_of (l : list regex) : regex :=
  match l with
  | [] => Empty
  | [r] => r
  | r :: l' => Branch r (branch_of l')
  end.

Definition frame_branches (f : frame) : list regex :=
  rev (seq_items (rev (cur f)) :: alts f).

Definition close_frame (f : frame) : regex := branch_of (frame_branches f).

Definition empty_frame : frame := Frame [] [].

Definition init : pstate := PState empty_frame [] false.

Definition on_top (g : frame -> frame) (st : pstate) : pstate :=
  match open_groups st with
  | [] => PState (g (base st)) [] (escaped st)
  | f :: fs => PState (base st) (g f :: fs) (escaped st)
  end.

Definition top (st : pstate) : frame :=
  match open_groups st with [] => base st | f :: _ => f end.

Definition push_item (i : item) (f : frame) : frame :=
  Frame (alts f) (i :: cur f).

Definition next_branch (f : frame) : frame :=
  Frame (seq_items (rev (cur f)) :: alts f) [].

Inductive token : Type :=
| TEscape | TOpen | TClose | TBar | TStar | TDot | TOther | TLit.

Definition classify (c : ascii) : token :=
  if Ascii.eqb c "\" then TEscape
  else if Ascii.eqb c "(" then TOpen
  else if Ascii.eqb c ")" then TClose
  else if Ascii.eqb c "|" then TBar
  else if Ascii.eqb c "*" then TStar
  else if Ascii.eqb c "." then TDot
  else if existsb (Ascii.eqb c) ["["; "{"; "+"; "?"; "^"; "$"]%char then TOther
  else TLit.

Definition isalnum (c : ascii) : bool :=
  let n := nat_of_ascii c in
  ((Nat.leb 48 n && Nat.leb n 57) || (Nat.leb 65 n && Nat.leb n 90)
   || (Nat.leb 97 n && Nat.leb n 122))%bool.

Definition set_escaped (b : bool) (st : pstate) : pstate :=
  PState (base st) (open_groups st) b.

Definition step (st : pstate) (c : ascii) : compiled pstate :=
  if escaped st then
    if isalnum c then Err (Unsupported c)
    else Ok (set_escaped false (on_top (push_item (IChr (Lit c))) st))
  else
    match classify c with
    | TEscape => Ok (set_escaped true st)
    | TOpen => Ok (PState (base st) (empty_frame :: open_groups st) false)
    | TClose =>
        match open_groups st with
        | [] => Err (ReError "unbalanced parenthesis")
        | f :: fs =>
            Ok (on_top (push_item (IGroup (close_frame f)))
                  (PState (base st) fs false))
        end
    | TBar => Ok (on_top next_branch st)
    | TStar =>
        match cur (top st) with
        | [] => Err (ReError "nothing to repeat")
        | IChr a :: l =>
            Ok (on_top (fun f => Frame (alts f) (IStar a :: l)) st)
        | IStar _ :: _ => Err (ReError "multiple repeat")
        | IGroup _ :: _ => Err (Unsupported c)
        end
    | TDot => Ok (on_top (push_item (IChr AnyChar)) st)
    | TOther => Err (Unsupported c)
    | TLit => Ok (on_top (push_item (IChr (Lit c))) st)
    end.

Fixpoint run (st : pstate) (s : string) : compiled pstate :=
  match s with
  | EmptyString => Ok st
  | String c s' => cbind (step st c) (fun st' => run st' s')
  end.

Definition finish (st : pstate) : compiled (list regex) :=
  if escaped st then Err (ReError "bad escape (end of pattern)")
  else match open_groups st with
       | [] => Ok (frame_branches (base st))
       | _ :: _ => Err (ReError "missing ), unterminated subpattern")
       end.

(** The same parser state with older alternatives [pre] below those of
    the outermost frame: the state after a pattern that ended in a bar. *)
Definition lift (pre : list regex) (st : pstate) : pstate :=
  PState (Frame (alts (base st) ++ pre) (cur (base st)))
         (open_groups st) (escaped st).

(** The top-level alternatives of a pattern. *)
Definition parse (pattern : string) : compiled (list regex) :=
  cbind (run init pattern) finish.

(** [re.compile(pattern)] *)
Definition compile (pattern : string) : compiled regex :=
  cmap branch_of (parse pattern).

(** *** Matching *)

Definition atom_matches (a : atom) (c : ascii) : bool :=
  match a with
  | Lit c' => Ascii.eqb c c'
  | AnyChar => negb (Ascii.eqb c "010")
  end.

(** Backtracking search in priority order; the continuation receives the
    text still to be read.  A star is greedy. *)
Fixpoint star_bt (a : atom) (k : string -> option string) (s : string)
  : option string :=
  match s with
  | EmptyString => k s
  | String c s' =>
      if atom_matches a c then
        match star_bt a k s' with
        | Some rest => Some rest
        | None => k s
        end
      else k s
  end.

Fixpoint bt (r : regex) (k : string -> option string) (s : string)
  : option string :=
  match r with
  | Empty => k s
  | Chr a =>
      match s with
      | String c s' => if atom_matches a c then k s' else None
      | EmptyString => None
      end
  | Star a => star_bt a k s
  | Seq r1 r2 => bt r1 (bt r2 k) s
  | Branch r1 r2 =>
      match bt r1 k s with
      | Some rest => Some rest
      | None => bt r2 k s
      end
  end.

(** A match object: the subject and the end of the span, which starts
    at 0.  Every match object is true. *)
Record match_object : Type := MatchObject {
  m_string : string;
  m_end : nat
}.

(** [pattern.match(s)]: a match object, or [None]. *)
Definition rmatch (r : regex) (s : string) : option match_object :=
  match bt r Some s with
  | Some rest => Some (MatchObject s (String.length s - String.length rest))
  | None => None
  end.

End Re.

(** ** Effects: logging, imports, exceptions, request state *)

Inductive event : Type :=
| LogDebug (msg : string)
| LogWarn (msg : string)
| LogWarning (msg : string)
| ImportModule (name : string).

Inductive exn : Type :=
| Exception (msg : string)
| ValueError (msg : string)
| TypeError (msg : string)
| CompileError (e : Re.error).

Inductive outcome (A : Type) : Type :=
| Returned (a : A)
| Raised (e : exn).

Arguments Returned {A} a.
Arguments Raised {A} e.

(** A computation over a store [S]: its outcome, the store it leaves and
    the events it emitted, oldest first. *)
Definition M (S A : Type) : Type := S -> outcome A * S * list event.

Definition ret {S A : Type} (a : A) : M S A := fun s => (Returned a, s, []).

Definition bind {S A B : Type} (m : M S A) (k : A -> M S B) : M S B :=
  fun s =>
    match m s with
    | (Returned a, s', ev) =>
        match k a s' with (o, s'', ev') => (o, s'', ev ++ ev') end
    | (Raised e, s', ev) => (Raised e, s', ev)
    end.

Definition raise {S A : Type} (e : exn) : M S A := fun s => (Raised e, s, []).

Definition emit {S : Type} (e : event) : M S unit :=
  fun s => (Returned tt, s, [e]).

Definition get_store {S : Type} : M S S := fun s => (Returned s, s, []).

Definition put_store {S : Type} (s : S) : M S unit :=
  fun _ => (Returned tt, s, []).

(** [try: body / except <caught>: handler] *)
Definition try_except {S A : Type} (body : M S A) (caught : exn -> bool)
  (handler : M S A) : M S A :=
  fun s =>
    match body s with
    | (Raised e, s', ev) =>
        if caught e then
          match handler s' with (o, s'', ev') => (o, s'', ev ++ ev') end
        else (Raised e, s', ev)
    | r => r
    end.

Declare Scope py_scope.
Delimit Scope py_scope with py.
Notation "x <- m ;; k" := (bind m (fun x => k))
  (at level 100, m at next level, right associativity) : py_scope.
Notation "m ;; k" := (bind m (fun _ => k))
  (at level 100, right associativity) : py_scope.

Definition is_ValueError (e : exn) : bool :=
  match e with ValueError _ => true | _ => false end.

(** The mapping method [get]: total, it raises nothing. *)
Definition dict_get {S V : Type} (d : gmap string V) (k : string)
  : M S (option V) := ret (d !! k).

(** [d.get(k, dflt)] with a default that may itself be [None]. *)
Definition dict_get_or {S V : Type} (d : gmap string V) (k : string)
  (dflt : option V) : M S (option V) :=
  ret (match d !! k with Some v => Some v | None => dflt end).

(** [d.get(k, dflt)] with a proper value as default. *)
Definition dict_get_default {S V : Type} (d : gmap string V) (k : string)
  (dflt : V) : M S V := ret (default dflt (d !! k)).

(** ** Data *)

(** Values the WSGI environment and the application configuration hold. *)
#[local] Unset Elimination Schemes.
Inductive pyobj : Type :=
| PyStr (s : string)
| PyInt (n : Z)
| PyBool (b : bool)
| PyDict (d : list (string * pyobj)).
#[local] Set Elimination Schemes.

(** Truth value of the result of a [get]: [None] when absent. *)
Definition truth_value (o : option pyobj) : bool :=
  match o with
  | None => false
  | Some (PyStr s) => PyStr.truthy s
  | Some (PyInt n) => negb (Z.eqb n 0)
  | Some (PyBool b) => b
  | Some (PyDict d) => match d with [] => false | _ => true end
  end.

(** Modelled from the spec: the class [RequestContext] of
    [magnum.common.context] is not part of the sources at hand; the
    record keeps each keyword argument the hook passes to the
    constructor, under the argument's name. *)
Record RequestContext : Type := mkRequestContext {
  auth_token : option string;
  auth_token_info : option pyobj;
  user : string;
  tenant : option string;
  domain : option string;
  user_domain : string;
  project_domain : string;
  user_name : string;
  roles : list string;
  auth_url : option string
}.

(** The request as the hook sees it.  Header names are keyed in the
    spelling the module uses; [security_context] is [None] until the
    attribute is assigned.  The request object keeps such an attribute
    in an entry of its own of the WSGI environment
    ([webob.adhoc_attrs]); that entry is what the field
    [security_context] stands for, and [environ] stands for the other
    entries. *)
Record Request : Type := mkRequest {
  path : string;
  headers : gmap string string;
  environ : gmap string pyobj;
  security_context : option RequestContext
}.

(** The state object pecan hands to a hook. *)
Record State : Type := mkState { request : Request }.

(** The options the hook reads from [CONF]: the boolean registered in
    [AUTH_OPTS] and the [auth_uri] of the [keystone_authtoken] group, which
    is [None] when unset. *)
Record Config : Type := mkConfig {
  enable_authentication : bool;
  keystone_authtoken_auth_uri : option string
}.

Definition OPT_GROUP_NAME : string := "keystone_authtoken".

Definition PUBLIC_ENDPOINTS : list string := [].

(** ** The module's functions *)

Local Open Scope py_scope.

(** A WSGI application: the bare application, or one wrapped by the
    keystone middleware subclass together with the options it was given. *)
Inductive wsgi_app : Type :=
| Application (name : string)
| AuthProtocolWrapper (app : wsgi_app) (conf : list (string * pyobj)).

(** [dict(x)] on what a configuration [get] returns: a mapping is copied,
    the empty string has no items, any other string is no sequence of
    pairs, and [None], integers and booleans are not iterable. *)
Definition py_dict {S : Type} (x : option pyobj)
  : M S (list (string * pyobj)) :=
  match x with
  | Some (PyDict d) => ret d
  | Some (PyStr EmptyString) => ret []
  | Some (PyStr _) =>
      raise (ValueError "dictionary update sequence element #0 has length 1; 2 is required")
  | Some (PyInt _) => raise (TypeError "'int' object is not iterable")
  | Some (PyBool _) => raise (TypeError "'bool' object is not iterable")
  | None => raise (TypeError "'NoneType' object is not iterable")
  end.

Definition install_warning : string :=
  "Keystone authentication is disabled by Magnum configuration parameter enable_authentication. Magnum will not authenticate incoming request. In order to enable authentication set enable_authentication option to True.".

Definition install {S : Type} (app : wsgi_app) (conf : gmap string pyobj)
  : M S wsgi_app :=
  enabled <- dict_get conf "enable_authentication" ;;
  if truth_value enabled then
    group <- dict_get conf OPT_GROUP_NAME ;;
    d <- py_dict group ;;
    ret (AuthProtocolWrapper app d)
  else
    emit (LogWarning install_warning) ;;
    ret app.

(** Helper methods for Auth. *)
Record AuthHelper : Type := mkAuthHelper {
  _public_endpoints_regexp : Re.regex
}.

(** [AuthHelper.__init__]; the module-level list it reads is an argument.
    [re.compile] may reject the joined pattern. *)
Definition AuthHelper_init (public_endpoints : list string)
  : Re.compiled AuthHelper :=
  let endpoints_pattern := PyStr.join "|" public_endpoints in
  Re.cmap mkAuthHelper (Re.compile endpoints_pattern).

Definition is_endpoint_public (self : AuthHelper) (path : string)
  : option Re.match_object :=
  Re.rmatch (_public_endpoints_regexp self) path.

(** Truth value of the result of [match]. *)
Definition matched (m : option Re.match_object) : bool :=
  match m with Some _ => true | None => false end.

(** The module-level instance, [AUTH = AuthHelper()], with the pattern
    list as the module defines it. *)
Definition AUTH : AuthHelper := mkAuthHelper Re.Empty.

(** Where [AuthProtocolWrapper.__call__] sends a request. *)
Inductive dispatch : Type :=
| CallApp (app : wsgi_app)
| CallKeystone (app : wsgi_app).

Definition AuthProtocolWrapper_call {S : Type} (AUTH : AuthHelper)
  (app : wsgi_app) (env : gmap string pyobj) : M S dispatch :=
  path <- dict_get env "PATH_INFO" ;;
  match path with
  | Some (PyStr p) =>
      if matched (is_endpoint_public AUTH p) then ret (CallApp app)
      else ret (CallKeystone app)
  | _ => raise (TypeError "expected string or buffer")
  end.

Definition dict_contains {V : Type} (d : gmap string V) (k : string) : bool :=
  match d !! k with Some _ => true | None => false end.

Definition deprecated_role_warning : string :=
  "X-Roles is missing. Using deprecated X-Role header".

(** Get the list of roles. *)
Definition _get_roles {S : Type} (req : Request) : M S (list string) :=
  roles <-
    (if dict_contains (headers req) "X-Roles" then
       dict_get_default (headers req) "X-Roles" ""
     else
       (* Fallback to deprecated role header: *)
       roles <- dict_get_default (headers req) "X-Role" "" ;;
       (if PyStr.truthy roles then emit (LogWarn deprecated_role_warning)
        else ret tt) ;;
       ret roles) ;;
  ret (map PyStr.strip (PyStr.split "," roles)).

Definition set_security_context (ctx : RequestContext) : M State unit :=
  state <- get_store ;;
  let r := request state in
  put_store (mkState (mkRequest (path r) (headers r) (environ r) (Some ctx))).

Definition is_Confirmed (identity_status : option string) : bool :=
  match identity_status with
  | Some s => String.eqb s "Confirmed"
  | None => false
  end.

(** [AuthInformationHook.before]; the globals [AUTH] and [CONF] it reads
    are arguments. *)
Definition before (AUTH : AuthHelper) (CONF : Config) : M State unit :=
  if negb (enable_authentication CONF) then ret tt
  else
    state <- get_store ;;
    (* Skip authentication for public endpoints *)
    if matched (is_endpoint_public AUTH (path (request state))) then ret tt
    else
      let headers := headers (request state) in
      user_id <- dict_get headers "X-User-Id" ;;
      match user_id with
      | None =>
          emit (LogDebug "X-User-Id header was not found in the request") ;;
          raise (Exception "Not authorized")
      | Some user_id =>
          roles <- _get_roles (request state) ;;
          project_id <- dict_get headers "X-Project-Id" ;;
          user_name <- dict_get_default headers "X-User-Name" "" ;;
          domain <- dict_get headers "X-Domain-Name" ;;
          project_domain_id <-
            dict_get_default headers "X-Project-Domain-Id" "" ;;
          user_domain_id <- dict_get_default headers "X-User-Domain-Id" "" ;;
          (* Get the auth token *)
          recv_auth_token <-
            try_except
              (storage_token <- dict_get headers "X-Storage-Token" ;;
               dict_get_or headers "X-Auth-Token" storage_token)
              is_ValueError
              (emit (LogDebug "No auth token found in the request.") ;;
               raise (Exception "Not authorized")) ;;
          auth_url <- dict_get headers "X-Auth-Url" ;;
          auth_url <-
            match auth_url with
            | None =>
                emit (ImportModule "keystonemiddleware.auth_token") ;;
                ret (keystone_authtoken_auth_uri CONF)
            | Some u => ret (Some u)
            end ;;
          auth_token_info <-
            dict_get (environ (request state)) "keystone.token_info" ;;
          identity_status <- dict_get headers "X-Identity-Status" ;;
          if is_Confirmed identity_status then
            let ctx :=
              {| auth_token := recv_auth_token;
                 auth_token_info := auth_token_info;
                 user := user_id;
                 tenant := project_id;
                 domain := domain;
                 user_domain := user_domain_id;
                 project_domain := project_domain_id;
                 user_name := user_name;
                 roles := roles;
                 auth_url := auth_url |} in
            set_security_context ctx
          else
            emit (LogDebug "The provided identity is not confirmed.") ;;
            raise (Exception "Not authorized. Identity not confirmed.")
      end.

(** ** Reading the result of a run *)

Definition run_outcome {S A : Type} (r : outcome A * S * list event)
  : outcome A := fst (fst r).

Definition run_store {S A : Type} (r : outcome A * S * list event) : S :=
  snd (fst r).

Definition run_events {S A : Type} (r : outcome A * S * list event)
  : list event := snd r.

(** The context attached to the request once the hook has run. *)
Definition context_after (helper : AuthHelper) (CONF : Config) (state : State)
  : option RequestContext :=
  security_context (request (run_store (before helper CONF state))).

(** The signal the hook raises to reject a request. *)
Definition unauthorized {A : Type} (o : outcome A) : Prop :=
  exists msg, o = Raised (Exception msg)
              /\ String.prefix "Not authorized" msg = true.

(** The identity headers the hook insists on. *)
Definition identity_accepted (req : Request) : Prop :=
  is_Some (headers req !! "X-User-Id")
  /\ headers req !! "X-Identity-Status" = Some "Confirmed".

(** The hook resolved the identity and accepted it. *)
Definition authenticated (helper : AuthHelper) (CONF : Config) (state : State)
  : Prop :=
  enable_authentication CONF = true
  /\ is_endpoint_public helper (path (request state)) = None
  /\ identity_accepted (request state).

(** The request with a context assigned to its [security_context]. *)
Definition with_context (state : State) (ctx : RequestContext) : State :=
  let r := request state in
  mkState (mkRequest (path r) (headers r) (environ r) (Some ctx)).

(** What [_get_roles] returns and emits, read off the header table. *)
Definition role_header (req : Request) : string :=
  if dict_contains (headers req) "X-Roles"
  then default "" (headers req !! "X-Roles")
  else default "" (headers req !! "X-Role").

Definition role_events (req : Request) : list event :=
  if dict_contains (headers req) "X-Roles" then []
  else if PyStr.truthy (default "" (headers req !! "X-Role"))
       then [LogWarn deprecated_role_warning] else [].

(** Events up to the identity check, once a user id is there. *)
Definition resolution_events (req : Request) : list event :=
  role_events req ++
  match headers req !! "X-Auth-Url" with
  | None => [ImportModule "keystonemiddleware.auth_token"]
  | Some _ => []
  end.

(** The context the hook builds from a request that carries user [u]. *)
Definition resolved_context (CONF : Config) (req : Request) (u : string)
  : RequestContext :=
  {| auth_token :=
       match headers req !! "X-Auth-Token" with
       | Some t => Some t
       | None => headers req !! "X-Storage-Token"
       end;
     auth_token_info := environ req !! "keystone.token_info";
     user := u;
     tenant := headers req !! "X-Project-Id";
     domain := headers req !! "X-Domain-Name";
     user_domain := default "" (headers req !! "X-User-Domain-Id");
     project_domain := default "" (headers req !! "X-Project-Domain-Id");
     user_name := default "" (headers req !! "X-User-Name");
     roles := map PyStr.strip (PyStr.split "," (role_header req));
     auth_url :=
       match headers req !! "X-Auth-Url" with
       | Some a => Some a
       | None => keystone_authtoken_auth_uri CONF
       end |}.


(** The path matches one of the listed patterns, taken on its own. *)
Definition matches_public_endpoint (public_endpoints : list string)
  (path : string) : Prop :=
  exists pe r, pe ∈ public_endpoints /\ Re.compile pe = Re.Ok r
               /\ is_Some (Re.rmatch r path).

(** Every listed pattern is a pattern on its own. *)
Definition well_formed_endpoints (public_endpoints : list string) : Prop :=
  Forall (fun pe => exists r, Re.compile pe = Re.Ok r) public_endpoints.

(** ** Sample configurations and requests *)

Definition conf_enabled : Config :=
  mkConfig true (Some "http://keystone:5000/v2.0").

Definition conf_disabled : Config := mkConfig false None.

(** The header table of the worked example. *)
Definition example_headers : gmap string string :=
  list_to_map [("X-User-Id", "u1"); ("X-Identity-Status", "Confirmed");
               ("X-Roles", "admin, member")].

Definition state_of (path : string) (headers : gmap string string) : State :=
  mkState (mkRequest path headers ∅ None).

(** A request with a user but no identity status, and one with an
    identity status and a deprecated role header but no user. *)
Definition unconfirmed_state : State :=
  state_of "/v1/pods" {[ "X-User-Id" := "u1" ]}.

Definition anonymous_state : State :=
  state_of "/v1/pods"
    (list_to_map [("X-Identity-Status", "Confirmed"); ("X-Role", "admin")]).

(** A confirmed user without any token header. *)
Definition tokenless_state : State :=
  state_of "/v1/pods"
    (list_to_map [("X-User-Id", "u1"); ("X-Identity-Status", "Confirmed")]).

(** Requests that name their roles in the current and in the deprecated
    header. *)
Definition roles_request : Request :=
  mkRequest "/v1/pods" {[ "X-Roles" := "admin, member" ]} ∅ None.

Definition role_request : Request :=
  mkRequest "/v1/pods" {[ "X-Role" := "admin, member" ]} ∅ None.

(** The worked example sent to [/v1/pods], and a request for the same
    path that carries no header at all. *)
Definition example_state : State := state_of "/v1/pods" example_headers.

Definition bare_state : State := state_of "/v1/pods" ∅.

(** A request for a public document that carries no header at all. *)
Definition public_docs_state : State := state_of "/public/docs" ∅.

(** A helper built from a one-entry pattern list. *)
Definition docs_endpoints : list string := ["/public"].

Definition docs_helper : AuthHelper :=
  mkAuthHelper
    (Re.Seq (Re.Chr (Re.Lit "/")) (Re.Seq (Re.Chr (Re.Lit "p"))
      (Re.Seq (Re.Chr (Re.Lit "u")) (Re.Seq (Re.Chr (Re.Lit "b"))
        (Re.Seq (Re.Chr (Re.Lit "l")) (Re.Seq (Re.Chr (Re.Lit "i"))
          (Re.Chr (Re.Lit "c")))))))).

(** ** Statements kept for comparison with the code *)

(** A context exists exactly when the request was authenticated or its
    path counted as public, with "public" as the hook tests it. *)
Definition context_iff_authenticated_or_public (helper : AuthHelper)
  (CONF : Config) (state : State) : Prop :=
  is_Some (context_after helper CONF state) <->
  authenticated helper CONF state
  \/ is_Some (is_endpoint_public helper (path (request state))).

(** The same with "public" read off the pattern list. *)
Definition context_iff_authenticated_or_listed
  (public_endpoints : list string) (helper : AuthHelper) (CONF : Config)
  (state : State) : Prop :=
  is_Some (context_after helper CONF state) <->
  authenticated helper CONF state
  \/ matches_public_endpoint public_endpoints (path (request state)).

(** The worked example: with authentication enabled and exactly the
    example headers, the hook returns and leaves a context for user [u1]
    with roles [admin] and [member]. *)
Definition example_resolves (helper : AuthHelper) (CONF : Config)
  (state : State) : Prop :=
  enable_authentication CONF = true ->
  headers (request state) = example_headers ->
  run_outcome (before helper CONF state) = Returned tt
  /\ exists ctx, context_after helper CONF state = Some ctx
                 /\ user ctx = "u1" /\ roles ctx = ["admin"; "member"].

(** ** Further sample data *)

(** A WSGI environment for a request to [/v1/pods]. *)
Definition pods_env : gmap string pyobj :=
  {[ "PATH_INFO" := PyStr "/v1/pods" ]}.

(** A confirmed user who forwards a storage token and an identity
    service URL. *)
Definition storage_token_state : State :=
  state_of "/v1/pods"
    (list_to_map [("X-User-Id", "u1"); ("X-Identity-Status", "Confirmed");
                  ("X-Storage-Token", "s3cr3t");
                  ("X-Auth-Url", "http://keystone:35357")]).

(** ** Plain patterns *)

(** A pattern made of ordinary characters only: none of the characters
    the pattern syntax gives a meaning to. *)
Fixpoint literal_pattern (p : string) : bool :=
  match p with
  | EmptyString => true
  | String c p' =>
      match Re.classify c with
      | Re.TLit => literal_pattern p'
      | _ => false
      end
  end.

(** The items a plain pattern parses to, one per character. *)
Fixpoint literal_items (p : string) : list Re.item :=
  match p with
  | EmptyString => []
  | String c p' => Re.IChr (Re.Lit c) :: literal_items p'
  end.

(** Two plain entries, the way a deployment would list its open routes. *)
Definition plain_endpoints : list string := ["/public"; "/v1/version"].

(** ** Role lists *)

(** How often a character occurs in a string. *)
Fixpoint count_char (c : ascii) (s : string) : nat :=
  match s with
  | EmptyString => 0
  | String d s' => (if Ascii.eqb d c then 1 else 0) + count_char c s'
  end.

(** A role name as a role list can carry it through a header: no comma
    in it and no whitespace at either end.  The empty name qualifies. *)
Definition clean_role (r : string) : Prop :=
  PyStr.mem_char "," r = false
  /\ PyStr.edge_ok (PyStr.first_char r)
  /\ PyStr.edge_ok (PyStr.last_char r).

(** A request that carries neither role header. *)
Definition roleless_request : Request :=
  mkRequest "/v1/pods" {[ "X-User-Id" := "u1" ]} ∅ None.

(** A request whose roles were written with a comma and a blank. *)
Definition joined_roles_request : Request :=
  mkRequest "/v1/pods" {[ "X-Roles" := "admin, member, " ]} ∅ None.

(** ** The pods controller: routing of [detail]
    (magnum/api/controllers/v1/pod.py)

    [PodsController.get_all] and [PodsController.detail] hand over to
    [_get_pods_collection], whose collaborators (limit and sort
    validation, the object layer, link building) live outside the
    sources at hand; it is an argument here.  What is embedded is the
    routing logic of [detail] itself. *)

Module PodsController.

Inductive api_error : Type :=
| HTTPNotFound
| OperationNotPermitted
| IndexError (msg : string).

Inductive reply (A : Type) : Type :=
| Replied (a : A)
| Failed (e : api_error).

Arguments Replied {A} a.
Arguments Failed {A} e.

(** [l[-1]]: the last item, or [IndexError] on the empty list. *)
Definition last_item {A : Type} (l : list A) : reply A :=
  match last l with
  | Some x => Replied x
  | None => Failed (IndexError "list index out of range")
  end.

Section Controller.

Context {A : Type}.

(** [_get_pods_collection(marker, limit, sort_key, sort_dir, expand,
    resource_url)] *)
Variable _get_pods_collection :
  option string -> option Z -> string -> string -> bool -> option string ->
  reply A.

(** Retrieve a list of pods. *)
Definition get_all (pod_uuid marker : option string) (limit : option Z)
  (sort_key sort_dir : string) : reply A :=
  _get_pods_collection marker limit sort_key sort_dir false None.

(** Retrieve a list of pods with detail; [request_path] is
    [pecan.request.path]. *)
Definition detail (request_path : string) (pod_uuid marker : option string)
  (limit : option Z) (sort_key sort_dir : string) : reply A :=
  (* /detail should only work against collections *)
  match last_item (removelast (PyStr.split "/" request_path)) with
  | Failed e => Failed e
  | Replied parent =>
      if negb (String.eqb parent "pods") then Failed HTTPNotFound
      else
        let expand := true in
        let resource_url := PyStr.join "/" ["pods"; "detail"] in
        _get_pods_collection marker limit sort_key sort_dir expand
          (Some resource_url)
  end.

End Controller.

(** The last but one segment of the path is [pods]: the path is
    [pods/x], or ends in [/pods/x], for a last segment [x] without a
    slash. *)
Definition under_pods (request_path : string) : Prop :=
  exists pre x,
    PyStr.mem_char "/" x = false
    /\ (request_path = "pods/" +:+ x
        \/ request_path = pre +:+ "/pods/" +:+ x).

(** A collection stand-in that reports the arguments it was called with. *)
Definition echo_collection (marker : option string) (limit : option Z)
  (sort_key sort_dir : string) (expand : bool) (resource_url : option string)
  : reply (bool * option string) :=
  Replied (expand, resource_url).

End PodsController.

(** An application configuration that enables authentication but has no
    [keystone_authtoken] section, and one that has it. *)
Definition conf_without_group : gmap string pyobj :=
  {[ "enable_authentication" := PyBool true ]}.

Definition conf_with_group : gmap string pyobj :=
  list_to_map
    [("enable_authentication", PyBool true);
     ("keystone_authtoken", PyDict [("auth_uri", PyStr "http://keystone")])].

(** * Properties *)

(** ** Sample runs of the primitives *)

Example split_roles :
  PyStr.split "," "admin, member" = ["admin"; " member"].
Proof. reflexivity. Qed.

Example split_empty : PyStr.split "," "" = [""].
Proof. reflexivity. Qed.

Example split_trailing : PyStr.split "," "a,,b," = ["a"; ""; "b"; ""].
Proof. reflexivity. Qed.

Example strip_both : PyStr.strip "  a b  " = "a b".
Proof. reflexivity. Qed.

Example join_none : PyStr.join "|" [] = "".
Proof. reflexivity. Qed.

Example join_three : PyStr.join "|" ["/"; "/v1"; "/x"] = "/|/v1|/x".
Proof. reflexivity. Qed.

Example compile_empty : Re.compile "" = Re.Ok Re.Empty.
Proof. reflexivity. Qed.

Example compile_alt :
  Re.compile "/|/v1" =
  Re.Ok (Re.Branch (Re.Chr (Re.Lit "/"))
           (Re.Seq (Re.Chr (Re.Lit "/"))
              (Re.Seq (Re.Chr (Re.Lit "v")) (Re.Chr (Re.Lit "1"))))).
Proof. reflexivity. Qed.

Example compile_group :
  Re.cmap (fun r => Re.rmatch r "/v1/pods") (Re.compile "/v(1|2)/.*s")
  = Re.Ok (Some (Re.MatchObject "/v1/pods" 8)).
Proof. reflexivity. Qed.

Example compile_unbalanced :
  Re.compile "a)" = Re.Err (Re.ReError "unbalanced parenthesis").
Proof. reflexivity. Qed.

Example compile_double_star :
  Re.compile "a**" = Re.Err (Re.ReError "multiple repeat").
Proof. reflexivity. Qed.

Example match_backtracks :
  Re.cmap (fun r => Re.rmatch r "aaab") (Re.compile "a*ab")
  = Re.Ok (Some (Re.MatchObject "aaab" 4)).
Proof. reflexivity. Qed.

Example match_prefix_only :
  Re.cmap (fun r => Re.rmatch r "x/public") (Re.compile "/public")
  = Re.Ok None.
Proof. reflexivity. Qed.

Ltac unfold_hook :=
  cbv [before _get_roles set_security_context bind ret raise emit get_store
       put_store try_except dict_get dict_get_or dict_get_default
       run_outcome run_store run_events context_after with_context
       role_header role_events is_ValueError negb fst snd].

Lemma get_roles_run {S : Type} (req : Request) (s : S) :
  _get_roles req s =
  (Returned (map PyStr.strip (PyStr.split "," (role_header req))), s,
   role_events req).
Proof.
  unfold_hook.
  destruct (dict_contains (headers req) "X-Roles"); [reflexivity|].
  destruct (PyStr.truthy (default "" (headers req !! "X-Role")));
    reflexivity.
Qed.

Lemma is_Confirmed_true (o : option string) :
  is_Confirmed o = true <-> o = Some "Confirmed".
Proof.
  destruct o as [s|]; simpl.
  - rewrite String.eqb_eq. split; [intros ->; reflexivity | congruence].
  - split; discriminate.
Qed.

Lemma is_Confirmed_false (o : option string) :
  is_Confirmed o = false <-> o <> Some "Confirmed".
Proof.
  rewrite <- is_Confirmed_true. destruct (is_Confirmed o); split; congruence.
Qed.

Lemma matched_false (m : option Re.match_object) :
  matched m = false <-> m = None.
Proof. destruct m; simpl; split; congruence. Qed.

Lemma matched_true (m : option Re.match_object) :
  matched m = true <-> is_Some m.
Proof.
  destruct m; simpl; split; try congruence; eauto.
  intros [? ?]; discriminate.
Qed.

Section HookRuns.

Variables (helper : AuthHelper) (CONF : Config) (state : State).

Let req := request state.

Lemma before_disabled :
  enable_authentication CONF = false ->
  before helper CONF state = (Returned tt, state, []).
Proof. intros H. unfold before. rewrite H. reflexivity. Qed.

Lemma before_public :
  enable_authentication CONF = true ->
  matched (is_endpoint_public helper (path req)) = true ->
  before helper CONF state = (Returned tt, state, []).
Proof.
  intros He Hp. subst req. unfold before. rewrite He. unfold_hook.
  rewrite Hp. reflexivity.
Qed.

Lemma before_no_user :
  enable_authentication CONF = true ->
  is_endpoint_public helper (path req) = None ->
  headers req !! "X-User-Id" = None ->
  before helper CONF state =
  (Raised (Exception "Not authorized"), state,
   [LogDebug "X-User-Id header was not found in the request"]).
Proof.
  intros He Hp Hu. subst req. unfold before. rewrite He. unfold_hook.
  rewrite Hp. unfold_hook. rewrite Hu. reflexivity.
Qed.

Lemma before_not_confirmed (u : string) :
  enable_authentication CONF = true ->
  is_endpoint_public helper (path req) = None ->
  headers req !! "X-User-Id" = Some u ->
  headers req !! "X-Identity-Status" <> Some "Confirmed" ->
  before helper CONF state =
  (Raised (Exception "Not authorized. Identity not confirmed."), state,
   resolution_events req ++ [LogDebug "The provided identity is not confirmed."]).
Proof.
  intros He Hp Hu Hs. apply is_Confirmed_false in Hs.
  unfold resolution_events. subst req.
  unfold before. rewrite He. unfold_hook. rewrite Hp. unfold_hook.
  rewrite Hu, Hs.
  destruct (dict_contains _ "X-Roles");
    [| destruct (PyStr.truthy _)];
    destruct (headers (request state) !! "X-Auth-Url"); reflexivity.
Qed.

Lemma before_confirmed (u : string) :
  enable_authentication CONF = true ->
  is_endpoint_public helper (path req) = None ->
  headers req !! "X-User-Id" = Some u ->
  headers req !! "X-Identity-Status" = Some "Confirmed" ->
  before helper CONF state =
  (Returned tt, with_context state (resolved_context CONF req u),
   resolution_events req).
Proof.
  intros He Hp Hu Hs. apply is_Confirmed_true in Hs.
  unfold resolution_events, resolved_context. subst req.
  unfold before. rewrite He. unfold_hook. rewrite Hp. unfold_hook.
  rewrite Hu, Hs.
  destruct (dict_contains _ "X-Roles");
    [| destruct (PyStr.truthy _)];
    destruct (headers (request state) !! "X-Auth-Url"); reflexivity.
Qed.

End HookRuns.

(** ** Patterns joined with a bar *)

Module ReFacts.
Import Re.

Lemma step_lift (pre : list regex) (st : pstate) (c : ascii) :
  step (lift pre st) c = cmap (lift pre) (step st c).
Proof.
  destruct st as [[al cu] og esc]. unfold step, lift, top, on_top. simpl.
  destruct esc.
  - destruct (isalnum c); [reflexivity|]. destruct og; reflexivity.
  - destruct (classify c); try reflexivity.
    + destruct og as [|f fs]; [reflexivity|]. destruct fs; reflexivity.
    + destruct og; reflexivity.
    + destruct og as [|[al' cu'] fs]; simpl.
      * destruct cu as [|[a|a|r] l]; reflexivity.
      * destruct cu' as [|[a|a|r] l]; reflexivity.
    + destruct og; reflexivity.
    + destruct og; reflexivity.
Qed.

Lemma run_lift (pre : list regex) (s : string) :
  forall st, run (lift pre st) s = cmap (lift pre) (run st s).
Proof.
  induction s as [|c s IH]; intros st; simpl; [reflexivity|].
  rewrite step_lift. destruct (step st c) as [st'|e]; simpl; [apply IH|reflexivity].
Qed.

Lemma run_app (a b : string) :
  forall st, run st (a +:+ b) = cbind (run st a) (fun st' => run st' b).
Proof.
  induction a as [|c a IH]; intros st; simpl; [reflexivity|].
  destruct (step st c) as [st'|e]; simpl; [apply IH|reflexivity].
Qed.

Lemma parse_inv (p : string) (l : list regex) :
  parse p = Ok l ->
  exists f, run init p = Ok (PState f [] false) /\ l = frame_branches f.
Proof.
  unfold parse. destruct (run init p) as [[f og esc]|e]; simpl; [|discriminate].
  unfold finish; simpl. destruct esc; [discriminate|].
  destruct og; [|discriminate]. intros [= <-]. eauto.
Qed.

Lemma parse_nonempty (p : string) (l : list regex) :
  parse p = Ok l -> l <> [].
Proof.
  intros (f & _ & ->)%parse_inv. unfold frame_branches. simpl.
  intros H. apply app_eq_nil in H as [_ H]. discriminate.
Qed.

(** Two patterns that parse on their own parse, joined by a bar, to the
    alternatives of the first followed by those of the second. *)
Lemma parse_bar (a b : string) (la lb : list regex) :
  parse a = Ok la -> parse b = Ok lb ->
  parse (a +:+ "|" +:+ b) = Ok (la ++ lb).
Proof.
  intros (fa & Ha & ->)%parse_inv (fb & Hb & ->)%parse_inv.
  unfold parse. rewrite run_app, Ha.
  change ("|" +:+ b) with (String "|" b). cbn [cbind run].
  change (step (PState fa [] false) "|")
    with (Ok (lift (seq_items (rev (cur fa)) :: alts fa) init)).
  cbn [cbind]. rewrite run_lift, Hb. cbn [cbind cmap].
  unfold finish, frame_branches; simpl. f_equal.
  rewrite rev_app_distr. simpl. rewrite <- app_assoc. reflexivity.
Qed.

Lemma parse_join (eps : list string) (ls : list (list regex)) :
  Forall2 (fun pe l => parse pe = Ok l) eps ls ->
  eps <> [] ->
  parse (PyStr.join "|" eps) = Ok (concat ls).
Proof.
  induction 1 as [|pe l eps ls Hpe Hrest IH]; [congruence|]. intros _.
  destruct Hrest as [|pe' l' eps' ls' Hpe' Hrest'].
  - simpl. rewrite app_nil_r. exact Hpe.
  - change (PyStr.join "|" (pe :: pe' :: eps'))
      with (pe +:+ "|" +:+ PyStr.join "|" (pe' :: eps')).
    change (concat (l :: l' :: ls')) with (l ++ concat (l' :: ls')).
    apply parse_bar; [exact Hpe|]. apply IH. discriminate.
Qed.

(** A chain of branches finds a match exactly when one of them does. *)
Lemma bt_branch_of (l : list regex) (k : string -> option string)
  (s : string) :
  l <> [] ->
  is_Some (bt (branch_of l) k s) <-> Exists (fun r => is_Some (bt r k s)) l.
Proof.
  induction l as [|r l IH]; [congruence|]. intros _.
  destruct l as [|r' l'].
  - simpl. rewrite Exists_cons, Exists_nil. tauto.
  - change (branch_of (r :: r' :: l'))
      with (Branch r (branch_of (r' :: l'))).
    rewrite Exists_cons, <- IH by discriminate. simpl.
    destruct (bt r k s) as [rest|].
    + split; eauto.
    + split; [tauto|]. intros [[? ?]|?]; [discriminate|assumption].
Qed.

Lemma rmatch_is_Some (r : regex) (s : string) :
  is_Some (rmatch r s) <-> is_Some (bt r Some s).
Proof.
  unfold rmatch. destruct (bt r Some s); split; intros [? ?];
    try discriminate; eauto.
Qed.

Lemma compile_inv (p : string) (r : regex) :
  compile p = Ok r <-> exists l, parse p = Ok l /\ r = branch_of l.
Proof.
  unfold compile. destruct (parse p) as [l|e]; simpl.
  - split; [intros [= <-]; eauto | intros (l' & [= <-] & ->); reflexivity].
  - split; [discriminate | intros (l' & [=] & _)].
Qed.

(** The empty pattern accepts the empty prefix of every string. *)
Lemma empty_pattern_matches (s : string) :
  cmap (fun r => rmatch r s) (compile "") = Ok (Some (MatchObject s 0)).
Proof.
  simpl. unfold rmatch. simpl. rewrite Nat.sub_diag. reflexivity.
Qed.

End ReFacts.

(** ** Splitting and trimming meet their descriptions *)

Module PyStrFacts.
Import PyStr.

Lemma append_cons (c : ascii) (a b : string) :
  String c a +:+ b = String c (a +:+ b).
Proof. reflexivity. Qed.

Lemma split_nonempty (sep : ascii) (s : string) : split sep s <> [].
Proof.
  destruct s as [|c s]; simpl; [discriminate|].
  destruct (Ascii.eqb c sep); [discriminate|].
  destruct (split sep s); discriminate.
Qed.

Lemma join_cons (sep : ascii) (w : string) (l : list string) :
  l <> [] ->
  join (String sep "") (w :: l) = w +:+ String sep (join (String sep "") l).
Proof. destruct l; [congruence|]. reflexivity. Qed.

Lemma join_split (sep : ascii) (s : string) :
  join (String sep "") (split sep s) = s.
Proof.
  induction s as [|c s IH]; [reflexivity|]. simpl.
  pose proof (split_nonempty sep s) as Hne.
  destruct (Ascii.eqb_spec c sep) as [->|Hc].
  - rewrite join_cons by assumption. simpl. rewrite IH. reflexivity.
  - destruct (split sep s) as [|w ws]; [congruence|].
    destruct ws as [|w' ws'].
    + simpl in *. rewrite IH. reflexivity.
    + rewrite join_cons by discriminate.
      rewrite join_cons in IH by discriminate.
      rewrite <- IH. reflexivity.
Qed.

Lemma split_no_sep (sep : ascii) (s : string) :
  Forall (fun w => mem_char sep w = false) (split sep s).
Proof.
  induction s as [|c s IH]; simpl.
  - repeat constructor.
  - destruct (Ascii.eqb_spec c sep) as [->|Hc].
    + constructor; [reflexivity|exact IH].
    + destruct (split sep s) as [|w ws]; [repeat constructor|].
      * simpl. apply Ascii.eqb_neq in Hc. rewrite Hc. reflexivity.
      * inversion IH; subst. constructor; [|assumption].
        simpl. apply Ascii.eqb_neq in Hc. rewrite Hc. assumption.
Qed.

Lemma split_field (sep : ascii) (w rest : string) :
  mem_char sep w = false ->
  split sep (w +:+ String sep rest) = w :: split sep rest.
Proof.
  induction w as [|c w IH]; simpl; intros H.
  - rewrite Ascii.eqb_refl. reflexivity.
  - apply orb_false_iff in H as [Hc Hw]. rewrite Hc, (IH Hw). reflexivity.
Qed.

Lemma split_last_field (sep : ascii) (w : string) :
  mem_char sep w = false -> split sep w = [w].
Proof.
  induction w as [|c w IH]; simpl; intros H; [reflexivity|].
  apply orb_false_iff in H as [Hc Hw]. rewrite Hc, (IH Hw). reflexivity.
Qed.

Lemma split_join (sep : ascii) (l : list string) :
  l <> [] ->
  Forall (fun w => mem_char sep w = false) l ->
  split sep (join (String sep "") l) = l.
Proof.
  induction l as [|w l IH]; [congruence|]. intros _ Hall.
  inversion Hall as [|? ? Hw Hl]; subst.
  destruct l as [|w' l'].
  - simpl. apply split_last_field, Hw.
  - rewrite join_cons by discriminate.
    rewrite split_field by assumption. f_equal. apply IH; [discriminate|assumption].
Qed.

(** [split] computes the one comma split there is. *)
Lemma comma_split_iff (s : string) (fields : list string) :
  comma_split s fields <-> fields = split "," s.
Proof.
  split.
  - intros (Hne & <- & Hall). symmetry. apply (split_join ","); assumption.
  - intros ->. split; [apply split_nonempty|].
    split; [apply (join_split ",")|apply split_no_sep].
Qed.

Lemma lstrip_spec (w : string) :
  exists a, w = a +:+ lstrip w /\ all_space a = true
            /\ edge_ok (first_char (lstrip w)).
Proof.
  induction w as [|c w (a & Hw & Ha & He)]; simpl.
  - exists "". repeat split. intros c [=].
  - destruct (isspace c) eqn:Hc.
    + exists (String c a). simpl. rewrite append_cons, Hc, Ha, <- Hw.
      repeat split. exact He.
    + exists "". repeat split. intros c' [= <-]. exact Hc.
Qed.

Lemma rstrip_spec (w : string) :
  exists b, w = rstrip w +:+ b /\ all_space b = true
            /\ edge_ok (last_char (rstrip w)).
Proof.
  induction w as [|c w (b & Hw & Hb & He)]; simpl.
  - exists "". repeat split. intros c [=].
  - destruct (rstrip w) as [|d t] eqn:Hr.
    + change ("" +:+ b) with b in Hw. subst b.
      destruct (isspace c) eqn:Hc.
      * exists (String c w). repeat split.
        -- simpl. rewrite Hc, Hb. reflexivity.
        -- intros c' [=].
      * exists w. repeat split; [assumption|]. intros c' [= <-]. exact Hc.
    + exists b. rewrite append_cons, <- Hw. repeat split; assumption.
Qed.

Lemma rstrip_first_char (w : string) :
  edge_ok (first_char w) -> first_char (rstrip w) = first_char w.
Proof.
  destruct w as [|c w]; [reflexivity|]. simpl. intros H.
  rewrite (H c eq_refl). destruct (rstrip w); reflexivity.
Qed.

Lemma strip_trimmed (w : string) : trimmed w (strip w).
Proof.
  unfold strip.
  destruct (lstrip_spec w) as (a & Hw & Ha & Hf).
  destruct (rstrip_spec (lstrip w)) as (b & Hl & Hb & He).
  exists a, b. rewrite <- Hl. repeat split; try assumption.
  rewrite rstrip_first_char; assumption.
Qed.

Lemma lstrip_spaces (a x : string) :
  all_space a = true -> lstrip (a +:+ x) = lstrip x.
Proof.
  induction a as [|c a IH]; simpl; [reflexivity|].
  intros [Hc Ha]%andb_true_iff. rewrite Hc. apply IH, Ha.
Qed.

Lemma lstrip_id (t : string) : edge_ok (first_char t) -> lstrip t = t.
Proof.
  destruct t as [|c t]; [reflexivity|]. simpl. intros H.
  rewrite (H c eq_refl). reflexivity.
Qed.

Lemma rstrip_spaces (b : string) : all_space b = true -> rstrip b = "".
Proof.
  induction b as [|c b IH]; simpl; [reflexivity|].
  intros [Hc Hb]%andb_true_iff. rewrite (IH Hb), Hc. reflexivity.
Qed.

Lemma rstrip_id (t : string) : edge_ok (last_char t) -> rstrip t = t.
Proof.
  induction t as [|c t IH]; [reflexivity|]. simpl. intros H.
  destruct t as [|d t'].
  - simpl. rewrite (H c eq_refl). reflexivity.
  - rewrite (IH H). reflexivity.
Qed.

Lemma rstrip_app_spaces (t b : string) :
  all_space b = true -> rstrip (t +:+ b) = rstrip t.
Proof.
  intros Hb. induction t as [|c t IH]; simpl.
  - apply rstrip_spaces, Hb.
  - rewrite IH. reflexivity.
Qed.

Lemma lstrip_all_space (b : string) : all_space b = true -> lstrip b = "".
Proof.
  induction b as [|c b IH]; simpl; [reflexivity|].
  intros [Hc Hb]%andb_true_iff. rewrite Hc. apply IH, Hb.
Qed.

(** [strip] computes the one trimmed form there is. *)
Lemma trimmed_iff (w t : string) : trimmed w t <-> t = strip w.
Proof.
  split; [|intros ->; apply strip_trimmed].
  intros (a & b & -> & Ha & Hb & Hf & Hl). unfold strip.
  rewrite lstrip_spaces by assumption.
  destruct t as [|c t].
  - simpl. rewrite lstrip_all_space by assumption. reflexivity.
  - rewrite (lstrip_id (String c t +:+ b)) by exact Hf.
    rewrite rstrip_app_spaces by assumption.
    symmetry. apply rstrip_id, Hl.
Qed.

End PyStrFacts.

(** ** The helper and the pattern list *)

Lemma AUTH_is_built : AuthHelper_init PUBLIC_ENDPOINTS = Re.Ok AUTH.
Proof. reflexivity. Qed.

Lemma docs_helper_is_built : AuthHelper_init docs_endpoints = Re.Ok docs_helper.
Proof. reflexivity. Qed.

Lemma AUTH_public_everywhere (path : string) :
  is_endpoint_public AUTH path = Some (Re.MatchObject path 0).
Proof.
  unfold is_endpoint_public, Re.rmatch. simpl. rewrite Nat.sub_diag.
  reflexivity.
Qed.

(** A helper built from patterns that are well formed one by one calls a
    path public exactly when one of the patterns matches it. *)
Lemma public_iff_pattern_matches (eps : list string) (helper : AuthHelper)
  (path : string) :
  eps <> [] ->
  well_formed_endpoints eps ->
  AuthHelper_init eps = Re.Ok helper ->
  is_Some (is_endpoint_public helper path) <-> matches_public_endpoint eps path.
Proof.
  intros Hne Hwf Hinit.
  assert (exists ls, Forall2 (fun pe l => Re.parse pe = Re.Ok l) eps ls)
    as [ls Hls].
  { clear Hne Hinit. induction Hwf as [|pe eps [r Hr] _ [ls IH]].
    - exists []. constructor.
    - apply ReFacts.compile_inv in Hr as (l & Hl & _).
      exists (l :: ls). constructor; assumption. }
  pose proof (ReFacts.parse_join eps ls Hls Hne) as Hjoin.
  unfold AuthHelper_init, Re.compile in Hinit. rewrite Hjoin in Hinit.
  simpl in Hinit. injection Hinit as <-.
  unfold is_endpoint_public; simpl.
  assert (concat ls <> []) as Hcne by (eapply ReFacts.parse_nonempty, Hjoin).
  rewrite ReFacts.rmatch_is_Some, (ReFacts.bt_branch_of _ _ _ Hcne).
  rewrite Exists_exists. unfold matches_public_endpoint.
  split.
  - intros (r & Hin & Hm).
    apply list_elem_of_In, in_concat in Hin as (l & Hl & Hr).
    apply list_elem_of_In in Hr.
    apply list_elem_of_In, list_elem_of_lookup in Hl as [i Hi].
    destruct (Forall2_lookup_r _ _ _ _ _ Hls Hi) as (pe & Hpe & Hparse).
    exists pe, (Re.branch_of l). split; [eapply list_elem_of_lookup_2, Hpe|].
    split; [apply ReFacts.compile_inv; eauto|].
    apply ReFacts.rmatch_is_Some, ReFacts.bt_branch_of.
    + eapply ReFacts.parse_nonempty, Hparse.
    + apply Exists_exists. eauto.
  - intros (pe & r & Hin & Hc & Hm).
    apply ReFacts.compile_inv in Hc as (l & Hl & ->).
    apply list_elem_of_lookup in Hin as [i Hi].
    destruct (Forall2_lookup_l _ _ _ _ _ Hls Hi) as (l' & Hl' & Hparse).
    assert (l' = l) as -> by congruence.
    apply ReFacts.rmatch_is_Some, ReFacts.bt_branch_of in Hm;
      [|eapply ReFacts.parse_nonempty, Hl].
    apply Exists_exists in Hm as (r & Hr & Hm).
    exists r. split; [|assumption].
    apply list_elem_of_In, in_concat. exists l.
    split; [|apply list_elem_of_In, Hr].
    apply list_elem_of_In. eapply list_elem_of_lookup_2, Hl'.
Qed.

(** Why the patterns must be well formed one by one: two fragments can
    close each other's group once joined, and then a pattern between them
    no longer stands as an alternative of its own. *)
Example joined_fragments :
  Re.cmap (fun r => Re.rmatch r "x") (Re.compile "x")
  = Re.Ok (Some (Re.MatchObject "x" 1))
  /\ Re.cmap (fun h => is_endpoint_public h "x")
       (AuthHelper_init ["c(a"; "x"; "b)"])
     = Re.Ok None.
Proof. split; reflexivity. Qed.

(** With the shipped helper the middleware wrapper hands every request
    with a path to the application, past the token check of its parent. *)
Lemma wrapper_skips_keystone {S : Type} (app : wsgi_app)
  (env : gmap string pyobj) (p : string) (s : S) :
  env !! "PATH_INFO" = Some (PyStr p) ->
  AuthProtocolWrapper_call AUTH app env s = (Returned (CallApp app), s, []).
Proof.
  intros H. unfold AuthProtocolWrapper_call, bind, dict_get, ret.
  rewrite H, AUTH_public_everywhere. reflexivity.
Qed.

Lemma wrapper_checks_private_paths {S : Type} (app : wsgi_app) (s : S) :
  AuthProtocolWrapper_call docs_helper app
    {[ "PATH_INFO" := PyStr "/v1/pods" ]} s
  = (Returned (CallKeystone app), s, []).
Proof. reflexivity. Qed.

(** ** The resolver's contract *)

Lemma example_headers_lookups :
  example_headers !! "X-User-Id" = Some "u1"
  /\ example_headers !! "X-Identity-Status" = Some "Confirmed"
  /\ example_headers !! "X-Roles" = Some "admin, member".
Proof. vm_compute. auto. Qed.

Lemma docs_helper_private :
  is_endpoint_public docs_helper "/v1/pods" = None.
Proof. reflexivity. Qed.

Lemma docs_helper_public :
  is_endpoint_public docs_helper "/public/docs"
  = Some (Re.MatchObject "/public/docs" 7).
Proof. reflexivity. Qed.

(** C1, as written, fails: the shipped helper counts the path [/v1/pods]
    as public and the hook attaches no context to a request for it; the
    same happens with a one-entry pattern list on a path the pattern
    matches. *)
Lemma public_path_has_no_context :
  ~ context_iff_authenticated_or_public AUTH conf_enabled
      (state_of "/v1/pods" example_headers)
  /\ ~ context_iff_authenticated_or_listed docs_endpoints docs_helper
        conf_enabled (state_of "/public/docs" example_headers).
Proof.
  split.
  - intros [_ H].
    destruct H as [ctx Hctx]; [right; rewrite AUTH_public_everywhere; eauto|].
    unfold context_after in Hctx.
    rewrite before_public in Hctx by reflexivity. discriminate.
  - intros [_ H].
    destruct H as [ctx Hctx].
    + right. exists "/public", (_public_endpoints_regexp docs_helper).
      split; [apply list_elem_of_here|]. split; [reflexivity|].
      change (is_Some (is_endpoint_public docs_helper "/public/docs")).
      rewrite docs_helper_public. eauto.
    + unfold context_after in Hctx.
      rewrite before_public in Hctx by reflexivity. discriminate.
Qed.

(** C1, amended: on a request that arrives without a context, the hook
    leaves a context exactly when the request was authenticated, that is
    authentication is enabled, the path is not public, [X-User-Id] is
    there and [X-Identity-Status] is [Confirmed]; in particular a request
    whose path is public is left without one. *)
Theorem context_iff_authenticated (helper : AuthHelper) (CONF : Config)
  (state : State) :
  security_context (request state) = None ->
  is_Some (context_after helper CONF state) <->
  enable_authentication CONF = true
  /\ is_endpoint_public helper (path (request state)) = None
  /\ is_Some (headers (request state) !! "X-User-Id")
  /\ headers (request state) !! "X-Identity-Status" = Some "Confirmed".
Proof.
  intros Hnone. unfold context_after, run_store.
  destruct (enable_authentication CONF) eqn:He.
  2:{ rewrite before_disabled by assumption. simpl. rewrite Hnone.
      split; [intros [? ?]; discriminate | intros [? _]; discriminate]. }
  destruct (is_endpoint_public helper (path (request state))) as [m|] eqn:Hp.
  { rewrite before_public by first [assumption | rewrite Hp; reflexivity].
    simpl. rewrite Hnone.
    split; [intros [? ?]; discriminate | intros (_ & ? & _); discriminate]. }
  destruct (headers (request state) !! "X-User-Id") as [u|] eqn:Hu.
  2:{ rewrite before_no_user by assumption. simpl. rewrite Hnone.
      split; [intros [? ?]; discriminate|].
      intros (_ & _ & [? ?] & _); discriminate. }
  destruct (decide (headers (request state) !! "X-Identity-Status"
                    = Some "Confirmed")) as [Hs|Hs].
  - rewrite (before_confirmed _ _ _ u) by assumption. simpl.
    split; eauto.
  - rewrite (before_not_confirmed _ _ _ u) by assumption. simpl.
    rewrite Hnone. split; [intros [? ?]; discriminate|].
    intros (_ & _ & _ & ?). contradiction.
Qed.

Lemma context_iff_authenticated_witness :
  is_Some (context_after docs_helper conf_enabled
             (state_of "/v1/pods" example_headers))
  <-> enable_authentication conf_enabled = true
      /\ is_endpoint_public docs_helper "/v1/pods" = None
      /\ is_Some (example_headers !! "X-User-Id")
      /\ example_headers !! "X-Identity-Status" = Some "Confirmed".
Proof.
  apply (context_iff_authenticated docs_helper conf_enabled
           (state_of "/v1/pods" example_headers)).
  reflexivity.
Defined.

(** C2: joining the empty pattern list gives the empty pattern, which
    compiles to the expression that accepts the empty prefix; the helper
    built from it returns a match object for every path, and so the hook
    returns at once, whatever the configuration and the request. *)
Theorem empty_endpoint_list_makes_every_path_public :
  PUBLIC_ENDPOINTS = []
  /\ PyStr.join "|" PUBLIC_ENDPOINTS = ""
  /\ Re.compile "" = Re.Ok Re.Empty
  /\ AuthHelper_init PUBLIC_ENDPOINTS = Re.Ok AUTH
  /\ (forall path : string,
        is_endpoint_public AUTH path = Some (Re.MatchObject path 0)
        /\ matched (is_endpoint_public AUTH path) = true)
  /\ (forall (CONF : Config) (state : State),
        before AUTH CONF state = (Returned tt, state, [])).
Proof.
  do 4 (split; [reflexivity|]). split.
  - intros path. rewrite AUTH_public_everywhere. split; reflexivity.
  - intros CONF state. destruct (enable_authentication CONF) eqn:He.
    + apply before_public; [assumption|].
      rewrite AUTH_public_everywhere. reflexivity.
    + apply before_disabled. assumption.
Qed.

(** Past the guard for public endpoints, that is for a helper that does
    not match the path, a request processed with authentication enabled
    whose headers are exactly those of the example is resolved, and the
    context attached has user [u1] and roles [admin] and [member]. *)
Theorem example_request_resolved (helper : AuthHelper) (CONF : Config)
  (state : State) :
  enable_authentication CONF = true ->
  is_endpoint_public helper (path (request state)) = None ->
  headers (request state) = example_headers ->
  run_outcome (before helper CONF state) = Returned tt
  /\ exists ctx, context_after helper CONF state = Some ctx
                 /\ user ctx = "u1" /\ roles ctx = ["admin"; "member"].
Proof.
  intros He Hp Hh.
  destruct example_headers_lookups as (Hu & Hs & Hr).
  rewrite <- Hh in Hu, Hs, Hr.
  unfold context_after.
  rewrite (before_confirmed _ _ _ "u1") by assumption.
  split; [reflexivity|]. eexists. split; [reflexivity|].
  split; [reflexivity|]. simpl.
  unfold role_header, dict_contains. rewrite Hr. reflexivity.
Qed.

Lemma example_request_resolved_witness :
  run_outcome (before docs_helper conf_enabled
                 (state_of "/v1/pods" example_headers)) = Returned tt
  /\ exists ctx,
       context_after docs_helper conf_enabled
         (state_of "/v1/pods" example_headers) = Some ctx
       /\ user ctx = "u1" /\ roles ctx = ["admin"; "member"].
Proof.
  apply (example_request_resolved docs_helper conf_enabled
           (state_of "/v1/pods" example_headers)); reflexivity.
Defined.

Lemma unauthorized_plain :
  unauthorized (A:=unit) (Raised (Exception "Not authorized")).
Proof. eexists. split; reflexivity. Qed.

Lemma unauthorized_unconfirmed :
  unauthorized (A:=unit)
    (Raised (Exception "Not authorized. Identity not confirmed.")).
Proof. eexists. split; reflexivity. Qed.

(** Past the guard for public endpoints, with authentication enabled
    and [X-User-Id] present, a request whose [X-Identity-Status] is
    anything but [Confirmed], a missing header included, is rejected as
    unauthorized; the request is left as it came, so no context is
    attached. *)
Theorem unconfirmed_identity_rejected (helper : AuthHelper) (CONF : Config)
  (state : State) (u : string) :
  enable_authentication CONF = true ->
  is_endpoint_public helper (path (request state)) = None ->
  headers (request state) !! "X-User-Id" = Some u ->
  headers (request state) !! "X-Identity-Status" <> Some "Confirmed" ->
  unauthorized (run_outcome (before helper CONF state))
  /\ run_store (before helper CONF state) = state
  /\ context_after helper CONF state = security_context (request state).
Proof.
  intros He Hp Hu Hs. unfold context_after.
  rewrite (before_not_confirmed _ _ _ u) by assumption.
  split; [apply unauthorized_unconfirmed|]. split; reflexivity.
Qed.

Lemma unconfirmed_identity_rejected_witness :
  unauthorized (run_outcome (before docs_helper conf_enabled unconfirmed_state))
  /\ run_store (before docs_helper conf_enabled unconfirmed_state)
     = unconfirmed_state
  /\ context_after docs_helper conf_enabled unconfirmed_state = None.
Proof.
  apply (unconfirmed_identity_rejected docs_helper conf_enabled
           unconfirmed_state "u1").
  - reflexivity.
  - reflexivity.
  - vm_compute. reflexivity.
  - vm_compute. discriminate.
Defined.

(** Past the guard for public endpoints, with authentication enabled, a
    request without [X-User-Id] is rejected as unauthorized at once: the
    only event is the debug line about the missing header (no role
    warning, no import), and the request is left as it came. *)
Theorem missing_user_id_rejected (helper : AuthHelper) (CONF : Config)
  (state : State) :
  enable_authentication CONF = true ->
  is_endpoint_public helper (path (request state)) = None ->
  headers (request state) !! "X-User-Id" = None ->
  unauthorized (run_outcome (before helper CONF state))
  /\ run_events (before helper CONF state)
     = [LogDebug "X-User-Id header was not found in the request"]
  /\ run_store (before helper CONF state) = state
  /\ context_after helper CONF state = security_context (request state).
Proof.
  intros He Hp Hu. unfold context_after.
  rewrite before_no_user by assumption.
  split; [apply unauthorized_plain|]. repeat split; reflexivity.
Qed.

Lemma missing_user_id_rejected_witness :
  unauthorized (run_outcome (before docs_helper conf_enabled anonymous_state))
  /\ run_events (before docs_helper conf_enabled anonymous_state)
     = [LogDebug "X-User-Id header was not found in the request"]
  /\ run_store (before docs_helper conf_enabled anonymous_state)
     = anonymous_state
  /\ context_after docs_helper conf_enabled anonymous_state = None.
Proof.
  apply (missing_user_id_rejected docs_helper conf_enabled anonymous_state).
  - reflexivity.
  - reflexivity.
  - vm_compute. reflexivity.
Defined.

(** C6: for every header value [s], a request that carries [X-Roles] with
    value [s] and a request without [X-Roles] that carries the deprecated
    [X-Role] with value [s] get the same role list, namely the comma
    split of [s] with every field trimmed; neither run touches the store
    or raises, the first emits nothing and the second at most the
    deprecation warning (it is emitted when [s] is not empty). *)
Theorem roles_headers_agree {S : Type} (req1 req2 : Request) (s : string)
  (st : S) :
  headers req1 !! "X-Roles" = Some s ->
  headers req2 !! "X-Roles" = None ->
  headers req2 !! "X-Role" = Some s ->
  exists fields rs,
    PyStr.comma_split s fields
    /\ Forall2 PyStr.trimmed fields rs
    /\ rs = map PyStr.strip (PyStr.split "," s)
    /\ _get_roles req1 st = (Returned rs, st, [])
    /\ _get_roles req2 st =
       (Returned rs, st,
        if PyStr.truthy s then [LogWarn deprecated_role_warning] else []).
Proof.
  intros H1 H2 H3.
  exists (PyStr.split "," s), (map PyStr.strip (PyStr.split "," s)).
  split; [apply PyStrFacts.comma_split_iff; reflexivity|].
  split.
  { induction (PyStr.split "," s); simpl; constructor;
      [apply PyStrFacts.strip_trimmed | assumption]. }
  split; [reflexivity|].
  rewrite !get_roles_run. unfold role_header, role_events, dict_contains.
  rewrite H1, H2, H3. split; reflexivity.
Qed.

Lemma roles_headers_agree_witness :
  exists fields rs,
    PyStr.comma_split "admin, member" fields
    /\ Forall2 PyStr.trimmed fields rs
    /\ rs = map PyStr.strip (PyStr.split "," "admin, member")
    /\ _get_roles roles_request tt = (Returned rs, tt, [])
    /\ _get_roles role_request tt =
       (Returned rs, tt, [LogWarn deprecated_role_warning]).
Proof.
  apply (roles_headers_agree roles_request role_request "admin, member" tt).
  - vm_compute. reflexivity.
  - vm_compute. reflexivity.
  - vm_compute. reflexivity.
Defined.

Lemma install_disabled {S : Type} (app : wsgi_app)
  (conf : gmap string pyobj) (s : S) :
  truth_value (conf !! "enable_authentication") = false ->
  install app conf s = (Returned app, s, [LogWarning install_warning]).
Proof.
  intros H. unfold install, bind, dict_get, ret, emit. rewrite H.
  reflexivity.
Qed.

(** C7: when [enable_authentication] is false the hook returns at once
    for every helper and every request: no error, no event, and the
    request is left as it came, so no context is attached.  [install]
    then hands the application back unwrapped and logs one warning. *)
Theorem disabled_authentication_passes_through (helper : AuthHelper)
  (CONF : Config) (state : State) :
  enable_authentication CONF = false ->
  before helper CONF state = (Returned tt, state, [])
  /\ context_after helper CONF state = security_context (request state)
  /\ forall (app : wsgi_app) (conf : gmap string pyobj),
       conf !! "enable_authentication" = Some (PyBool false) ->
       install app conf tt
       = (Returned app, tt, [LogWarning install_warning]).
Proof.
  intros He. unfold context_after.
  rewrite before_disabled by assumption.
  split; [reflexivity|]. split; [reflexivity|].
  intros app conf Hc. apply install_disabled. rewrite Hc. reflexivity.
Qed.

Lemma disabled_authentication_passes_through_witness :
  before docs_helper conf_disabled anonymous_state
  = (Returned tt, anonymous_state, [])
  /\ context_after docs_helper conf_disabled anonymous_state = None
  /\ install (Application "magnum")
       {[ "enable_authentication" := PyBool false ]} tt
     = (Returned (Application "magnum"), tt, [LogWarning install_warning]).
Proof.
  destruct (disabled_authentication_passes_through docs_helper conf_disabled
              anonymous_state eq_refl) as (Hb & Hc & Hi).
  split; [exact Hb|]. split; [exact Hc|].
  apply Hi. vm_compute. reflexivity.
Defined.

(** C8: with authentication enabled, a request whose path is public,
    be it that the helper's test succeeds or that the path matches one
    of the patterns of a well-formed list the helper was built from, is
    passed through: the hook returns without error or event and leaves
    the request as it came, whatever headers it carries or lacks. *)
Theorem public_endpoint_passes_through (eps : list string)
  (helper : AuthHelper) (CONF : Config) (state : State) :
  enable_authentication CONF = true ->
  is_Some (is_endpoint_public helper (path (request state)))
  \/ (AuthHelper_init eps = Re.Ok helper
      /\ well_formed_endpoints eps
      /\ matches_public_endpoint eps (path (request state))) ->
  before helper CONF state = (Returned tt, state, [])
  /\ context_after helper CONF state = security_context (request state).
Proof.
  intros He Hpub.
  assert (is_Some (is_endpoint_public helper (path (request state)))) as Hp.
  { destruct Hpub as [H|(Hinit & Hwf & Hm)]; [exact H|].
    eapply public_iff_pattern_matches; eauto.
    destruct Hm as (pe & _ & Hin & _). intros ->. inversion Hin. }
  apply matched_true in Hp. unfold context_after.
  rewrite before_public by assumption. split; reflexivity.
Qed.

Lemma public_endpoint_passes_through_witness :
  before docs_helper conf_enabled public_docs_state
  = (Returned tt, public_docs_state, [])
  /\ context_after docs_helper conf_enabled public_docs_state = None.
Proof.
  apply (public_endpoint_passes_through docs_endpoints docs_helper
           conf_enabled public_docs_state).
  - reflexivity.
  - right. split; [reflexivity|]. split.
    + constructor; [|constructor]. eexists. reflexivity.
    + exists "/public", (_public_endpoints_regexp docs_helper).
      split; [apply list_elem_of_here|]. split; [reflexivity|].
      eexists. reflexivity.
Defined.

(** Past the guard for public endpoints, with authentication enabled,
    the hook ends in exactly one of two ways: it returns and the request
    is the one that came with a context assigned, or it raises the
    unauthorized signal and the request is left as it came. *)
Theorem resolution_has_two_outcomes (helper : AuthHelper) (CONF : Config)
  (state : State) :
  enable_authentication CONF = true ->
  is_endpoint_public helper (path (request state)) = None ->
  let r := before helper CONF state in
  let attached :=
    run_outcome r = Returned tt
    /\ exists ctx, run_store r = with_context state ctx in
  let rejected := unauthorized (run_outcome r) /\ run_store r = state in
  (attached \/ rejected) /\ ~ (attached /\ rejected).
Proof.
  intros He Hp. cbv zeta. split.
  - destruct (headers (request state) !! "X-User-Id") as [u|] eqn:Hu.
    + destruct (decide (headers (request state) !! "X-Identity-Status"
                        = Some "Confirmed")) as [Hs|Hs].
      * left. rewrite (before_confirmed _ _ _ u) by assumption.
        split; [reflexivity|]. eexists; reflexivity.
      * right. rewrite (before_not_confirmed _ _ _ u) by assumption.
        split; [apply unauthorized_unconfirmed|reflexivity].
    + right. rewrite before_no_user by assumption.
      split; [apply unauthorized_plain|reflexivity].
  - intros [[Hret _] [(msg & Hraise & _) _]]. congruence.
Qed.

Lemma resolution_has_two_outcomes_witness :
  ((run_outcome (before docs_helper conf_enabled unconfirmed_state)
    = Returned tt
    /\ exists ctx,
         run_store (before docs_helper conf_enabled unconfirmed_state)
         = with_context unconfirmed_state ctx)
   \/ (unauthorized
         (run_outcome (before docs_helper conf_enabled unconfirmed_state))
       /\ run_store (before docs_helper conf_enabled unconfirmed_state)
          = unconfirmed_state))
  /\ ~ ((run_outcome (before docs_helper conf_enabled unconfirmed_state)
         = Returned tt
         /\ exists ctx,
              run_store (before docs_helper conf_enabled unconfirmed_state)
              = with_context unconfirmed_state ctx)
        /\ (unauthorized
              (run_outcome (before docs_helper conf_enabled unconfirmed_state))
            /\ run_store (before docs_helper conf_enabled unconfirmed_state)
               = unconfirmed_state)).
Proof.
  apply (resolution_has_two_outcomes docs_helper conf_enabled
           unconfirmed_state); reflexivity.
Defined.

Lemma no_token_event (req : Request) (tail : list event) :
  (forall e, e ∈ tail -> exists msg, e = LogDebug msg
                         /\ msg <> "No auth token found in the request.") ->
  LogDebug "No auth token found in the request."
    ∉ resolution_events req ++ tail.
Proof.
  intros Htail Hin. apply elem_of_app in Hin as [Hin|Hin].
  - unfold resolution_events, role_events in Hin.
    apply elem_of_app in Hin as [Hin|Hin].
    + destruct (dict_contains _ _); [inversion Hin|].
      destruct (PyStr.truthy _); [|inversion Hin].
      apply list_elem_of_singleton in Hin. discriminate.
    + destruct (headers req !! "X-Auth-Url"); [inversion Hin|].
      apply list_elem_of_singleton in Hin. discriminate.
  - destruct (Htail _ Hin) as (msg & [= <-] & Hne). congruence.
Qed.

(** C10: the hook never rejects for want of a token.  The guarded
    reading of the token headers returns for every header table, so its
    handler never runs; the handler's debug line is in no run of the
    hook; a rejection means [X-User-Id] is missing or the identity is not
    confirmed; and a confirmed user without [X-Auth-Token] and
    [X-Storage-Token] gets a context whose token is [None]. *)
Theorem missing_token_never_rejects :
  (forall (S : Type) (h : gmap string string)
          (handler : M S (option string)) (s : S),
     try_except
       (storage_token <- dict_get h "X-Storage-Token" ;;
        dict_get_or h "X-Auth-Token" storage_token)
       is_ValueError handler s
     = (Returned (match h !! "X-Auth-Token" with
                  | Some t => Some t
                  | None => h !! "X-Storage-Token"
                  end), s, []))
  /\ (forall (helper : AuthHelper) (CONF : Config) (state : State),
        LogDebug "No auth token found in the request."
          ∉ run_events (before helper CONF state))
  /\ (forall (helper : AuthHelper) (CONF : Config) (state : State) (e : exn),
        run_outcome (before helper CONF state) = Raised e ->
        headers (request state) !! "X-User-Id" = None
        \/ headers (request state) !! "X-Identity-Status"
           <> Some "Confirmed")
  /\ (forall (helper : AuthHelper) (CONF : Config) (state : State)
             (u : string),
        enable_authentication CONF = true ->
        is_endpoint_public helper (path (request state)) = None ->
        headers (request state) !! "X-User-Id" = Some u ->
        headers (request state) !! "X-Identity-Status" = Some "Confirmed" ->
        headers (request state) !! "X-Auth-Token" = None ->
        headers (request state) !! "X-Storage-Token" = None ->
        run_outcome (before helper CONF state) = Returned tt
        /\ exists ctx, context_after helper CONF state = Some ctx
                       /\ auth_token ctx = None).
Proof.
  split; [|split; [|split]].
  - intros S h handler s. reflexivity.
  - intros helper CONF state.
    destruct (enable_authentication CONF) eqn:He;
      [|rewrite before_disabled by assumption; apply not_elem_of_nil].
    destruct (is_endpoint_public helper (path (request state))) eqn:Hp;
      [rewrite before_public
         by first [assumption | rewrite Hp; reflexivity];
       apply not_elem_of_nil|].
    destruct (headers (request state) !! "X-User-Id") as [u|] eqn:Hu.
    + destruct (decide (headers (request state) !! "X-Identity-Status"
                        = Some "Confirmed")) as [Hs|Hs].
      * rewrite (before_confirmed _ _ _ u) by assumption.
        unfold run_events, snd.
        rewrite <- (app_nil_r (resolution_events _)).
        apply no_token_event. intros e Hin. inversion Hin.
      * rewrite (before_not_confirmed _ _ _ u) by assumption.
        unfold run_events, snd. apply no_token_event.
        intros e ->%list_elem_of_singleton. eexists. split; [reflexivity|].
        discriminate.
    + rewrite before_no_user by assumption.
      intros ?%list_elem_of_singleton. discriminate.
  - intros helper CONF state e.
    destruct (enable_authentication CONF) eqn:He;
      [|rewrite before_disabled by assumption; discriminate].
    destruct (is_endpoint_public helper (path (request state))) eqn:Hp;
      [rewrite before_public
         by first [assumption | rewrite Hp; reflexivity];
       discriminate|].
    destruct (headers (request state) !! "X-User-Id") as [u|] eqn:Hu;
      [|intros _; left; reflexivity].
    destruct (decide (headers (request state) !! "X-Identity-Status"
                      = Some "Confirmed")) as [Hs|Hs];
      [|intros _; right; assumption].
    rewrite (before_confirmed _ _ _ u) by assumption. discriminate.
  - intros helper CONF state u He Hp Hu Hs Ha Ht. unfold context_after.
    rewrite (before_confirmed _ _ _ u) by assumption.
    split; [reflexivity|]. eexists. split; [reflexivity|].
    simpl. rewrite Ha, Ht. reflexivity.
Qed.

Lemma missing_token_never_rejects_witness :
  run_outcome (before docs_helper conf_enabled tokenless_state) = Returned tt
  /\ exists ctx,
       context_after docs_helper conf_enabled tokenless_state = Some ctx
       /\ auth_token ctx = None.
Proof.
  destruct missing_token_never_rejects as (_ & _ & _ & H).
  apply (H docs_helper conf_enabled tokenless_state "u1").
  - reflexivity.
  - reflexivity.
  - vm_compute. reflexivity.
  - vm_compute. reflexivity.
  - vm_compute. reflexivity.
  - vm_compute. reflexivity.
Defined.

(** ** The hook with the pattern list as shipped

    [PUBLIC_ENDPOINTS] lists no route, and the wrapper's docstring says
    that the public routes are those the list defines: as shipped, no
    route is public.  The helper built from the empty list nevertheless
    matches every path, so the guard for public endpoints lets every
    request through.  The four runs below are requests for [/v1/pods]
    with authentication enabled. *)

Lemma no_listed_endpoint (path : string) :
  ~ matches_public_endpoint PUBLIC_ENDPOINTS path.
Proof. intros (pe & r & Hin & _). inversion Hin. Qed.

Lemma returned_is_not_unauthorized : ~ unauthorized (Returned tt).
Proof. intros (msg & H & _). discriminate. Qed.

(** C3: the code as shipped does not resolve the worked example.  The
    path [/v1/pods] matches no listed pattern, authentication is enabled
    and the headers are exactly those of the example, yet the hook
    returns at the guard for public endpoints and attaches no context. *)
Theorem shipped_hook_skips_example :
  ~ matches_public_endpoint PUBLIC_ENDPOINTS (path (request example_state))
  /\ enable_authentication conf_enabled = true
  /\ headers (request example_state) = example_headers
  /\ before AUTH conf_enabled example_state = (Returned tt, example_state, [])
  /\ context_after AUTH conf_enabled example_state = None
  /\ ~ example_resolves AUTH conf_enabled example_state.
Proof.
  assert (before AUTH conf_enabled example_state
          = (Returned tt, example_state, [])) as Hrun
    by (apply before_public; reflexivity).
  split; [apply no_listed_endpoint|]. do 2 (split; [reflexivity|]).
  split; [exact Hrun|]. unfold example_resolves, context_after.
  rewrite Hrun. split; [reflexivity|].
  intros H. destruct H as (_ & ctx & Hctx & _); try reflexivity.
  discriminate.
Qed.

(** C4: the code as shipped does not reject an unconfirmed identity.
    The path [/v1/pods] matches no listed pattern, authentication is
    enabled, [X-User-Id] is present and [X-Identity-Status] is absent,
    yet the hook returns at the guard for public endpoints: nothing is
    raised. *)
Theorem shipped_hook_passes_unconfirmed :
  ~ matches_public_endpoint PUBLIC_ENDPOINTS (path (request unconfirmed_state))
  /\ enable_authentication conf_enabled = true
  /\ headers (request unconfirmed_state) !! "X-User-Id" = Some "u1"
  /\ headers (request unconfirmed_state) !! "X-Identity-Status" = None
  /\ before AUTH conf_enabled unconfirmed_state
     = (Returned tt, unconfirmed_state, [])
  /\ ~ unauthorized (run_outcome (before AUTH conf_enabled unconfirmed_state)).
Proof.
  assert (before AUTH conf_enabled unconfirmed_state
          = (Returned tt, unconfirmed_state, [])) as Hrun
    by (apply before_public; reflexivity).
  split; [apply no_listed_endpoint|]. split; [reflexivity|].
  split; [vm_compute; reflexivity|]. split; [vm_compute; reflexivity|].
  split; [exact Hrun|]. rewrite Hrun. apply returned_is_not_unauthorized.
Qed.

(** C5: the code as shipped does not reject a request without
    [X-User-Id].  The path [/v1/pods] matches no listed pattern and
    authentication is enabled, yet the hook returns at the guard for
    public endpoints: nothing is raised and no debug line is logged. *)
Theorem shipped_hook_passes_anonymous :
  ~ matches_public_endpoint PUBLIC_ENDPOINTS (path (request anonymous_state))
  /\ enable_authentication conf_enabled = true
  /\ headers (request anonymous_state) !! "X-User-Id" = None
  /\ before AUTH conf_enabled anonymous_state
     = (Returned tt, anonymous_state, [])
  /\ ~ unauthorized (run_outcome (before AUTH conf_enabled anonymous_state)).
Proof.
  assert (before AUTH conf_enabled anonymous_state
          = (Returned tt, anonymous_state, [])) as Hrun
    by (apply before_public; reflexivity).
  split; [apply no_listed_endpoint|]. split; [reflexivity|].
  split; [vm_compute; reflexivity|].
  split; [exact Hrun|]. rewrite Hrun. apply returned_is_not_unauthorized.
Qed.

(** C9: the code as shipped has a third outcome.  For a request without
    any header, on the path [/v1/pods] that matches no listed pattern
    and with authentication enabled, the hook returns: no context is
    attached and the request is not rejected either. *)
Theorem shipped_hook_third_outcome :
  ~ matches_public_endpoint PUBLIC_ENDPOINTS (path (request bare_state))
  /\ enable_authentication conf_enabled = true
  /\ run_outcome (before AUTH conf_enabled bare_state) = Returned tt
  /\ run_store (before AUTH conf_enabled bare_state) = bare_state
  /\ context_after AUTH conf_enabled bare_state = None
  /\ ~ (exists ctx, run_store (before AUTH conf_enabled bare_state)
                    = with_context bare_state ctx)
  /\ ~ unauthorized (run_outcome (before AUTH conf_enabled bare_state)).
Proof.
  assert (before AUTH conf_enabled bare_state
          = (Returned tt, bare_state, [])) as Hrun
    by (apply before_public; reflexivity).
  split; [apply no_listed_endpoint|]. split; [reflexivity|].
  unfold context_after. rewrite Hrun.
  do 3 (split; [reflexivity|]). split.
  - intros (ctx & H). discriminate H.
  - apply returned_is_not_unauthorized.
Qed.

(** * Further properties of the module *)

(** ** What the hook touches *)

(** The five ways a run of the hook can go, in one place. *)
Lemma before_cases (helper : AuthHelper) (CONF : Config) (state : State) :
  let req := request state in
  (enable_authentication CONF = false
   /\ before helper CONF state = (Returned tt, state, []))
  \/ (enable_authentication CONF = true
      /\ is_Some (is_endpoint_public helper (path req))
      /\ before helper CONF state = (Returned tt, state, []))
  \/ (enable_authentication CONF = true
      /\ is_endpoint_public helper (path req) = None
      /\ headers req !! "X-User-Id" = None
      /\ before helper CONF state =
         (Raised (Exception "Not authorized"), state,
          [LogDebug "X-User-Id header was not found in the request"]))
  \/ (exists u,
        enable_authentication CONF = true
        /\ is_endpoint_public helper (path req) = None
        /\ headers req !! "X-User-Id" = Some u
        /\ headers req !! "X-Identity-Status" <> Some "Confirmed"
        /\ before helper CONF state =
           (Raised (Exception "Not authorized. Identity not confirmed."),
            state,
            resolution_events req
            ++ [LogDebug "The provided identity is not confirmed."]))
  \/ (exists u,
        enable_authentication CONF = true
        /\ is_endpoint_public helper (path req) = None
        /\ headers req !! "X-User-Id" = Some u
        /\ headers req !! "X-Identity-Status" = Some "Confirmed"
        /\ before helper CONF state =
           (Returned tt, with_context state (resolved_context CONF req u),
            resolution_events req)).
Proof.
  cbv zeta.
  destruct (enable_authentication CONF) eqn:He;
    [|left; split; [reflexivity|apply before_disabled, He]].
  destruct (is_endpoint_public helper (path (request state))) as [m|] eqn:Hp.
  { right; left. split; [reflexivity|]. split; [eauto|].
    apply before_public; [assumption|]. rewrite Hp. reflexivity. }
  destruct (headers (request state) !! "X-User-Id") as [u|] eqn:Hu.
  2:{ right; right; left. repeat split. apply before_no_user; assumption. }
  destruct (decide (headers (request state) !! "X-Identity-Status"
                    = Some "Confirmed")) as [Hs|Hs].
  - do 4 right. exists u. repeat split; try assumption.
    apply (before_confirmed _ _ _ u); assumption.
  - do 3 right; left. exists u. repeat split; try assumption.
    apply (before_not_confirmed _ _ _ u); assumption.
Qed.

(** X1: whatever the helper, the configuration and the request, the hook
    leaves the path and the headers of the request as they were, and
    every entry of the WSGI environment other than the one the request
    object keeps its ad hoc attributes in ([webob.adhoc_attrs]); the
    only attribute it ever assigns is [security_context]. *)
Theorem before_keeps_request_data (helper : AuthHelper) (CONF : Config)
  (state : State) :
  let req' := request (run_store (before helper CONF state)) in
  path req' = path (request state)
  /\ headers req' = headers (request state)
  /\ forall key : string,
       key <> "webob.adhoc_attrs" ->
       environ req' !! key = environ (request state) !! key.
Proof.
  cbv zeta.
  destruct (before_cases helper CONF state)
    as [(_ & ->)|[(_ & _ & ->)|[(_ & _ & _ & ->)
         |[(u & _ & _ & _ & _ & ->)|(u & _ & _ & _ & _ & ->)]]]];
    repeat split; reflexivity.
Qed.

Lemma before_keeps_request_data_witness :
  path (request (run_store (before docs_helper conf_enabled
                              storage_token_state)))
  = "/v1/pods"
  /\ environ (request (run_store (before docs_helper conf_enabled
                                    storage_token_state)))
       !! "keystone.token_info"
     = environ (request storage_token_state) !! "keystone.token_info".
Proof.
  destruct (before_keeps_request_data docs_helper conf_enabled
              storage_token_state) as (Hp & _ & He).
  split; [exact Hp|]. apply He. discriminate.
Defined.

(** X2: running the hook a second time on the request it left behind
    gives the same outcome, the same request and the same events as the
    first run: a context that is already attached is rebuilt to the same
    value, nothing accumulates. *)
Theorem before_idempotent (helper : AuthHelper) (CONF : Config)
  (state : State) :
  before helper CONF (run_store (before helper CONF state))
  = before helper CONF state.
Proof.
  destruct (before_cases helper CONF state)
    as [(_ & H)|[(_ & _ & H)|[(_ & _ & _ & H)
         |[(u & _ & _ & _ & _ & H)|(u & He & Hp & Hu & Hs & H)]]]];
    rewrite H; unfold run_store; cbn [fst snd]; try exact H.
  rewrite (before_confirmed _ _ _ u) by assumption. reflexivity.
Qed.

Lemma import_in_resolution_events (req : Request) :
  ImportModule "keystonemiddleware.auth_token" ∈ resolution_events req
  <-> headers req !! "X-Auth-Url" = None.
Proof.
  unfold resolution_events, role_events. rewrite elem_of_app.
  destruct (headers req !! "X-Auth-Url") as [a|].
  - split; [|discriminate]. intros [H|H]; [|inversion H].
    destruct (dict_contains _ _); [inversion H|].
    destruct (PyStr.truthy _); [|inversion H].
    apply list_elem_of_singleton in H. discriminate.
  - split; [reflexivity|]. intros _. right. apply list_elem_of_here.
Qed.

Lemma truthy_nonempty (v : string) : PyStr.truthy v = true <-> v <> "".
Proof. destruct v; simpl; split; congruence. Qed.

Lemma warning_in_resolution_events (req : Request) :
  LogWarn deprecated_role_warning ∈ resolution_events req
  <-> headers req !! "X-Roles" = None
      /\ exists v, headers req !! "X-Role" = Some v /\ v <> "".
Proof.
  unfold resolution_events, role_events, dict_contains.
  rewrite elem_of_app.
  assert (LogWarn deprecated_role_warning
            ∉ match headers req !! "X-Auth-Url" with
              | Some _ => []
              | None => [ImportModule "keystonemiddleware.auth_token"]
              end) as Hno.
  { destruct (headers req !! "X-Auth-Url"); intros H; [inversion H|].
    apply list_elem_of_singleton in H. discriminate. }
  destruct (headers req !! "X-Roles") as [r|].
  - split; [intros [H|H]; [inversion H|contradiction]|].
    intros [? _]; discriminate.
  - destruct (headers req !! "X-Role") as [v|]; simpl.
    + destruct (PyStr.truthy v) eqn:Hv.
      * split; [|intros _; left; apply list_elem_of_here].
        intros _. split; [reflexivity|]. exists v.
        split; [reflexivity|]. apply truthy_nonempty, Hv.
      * split; [intros [H|H]; [inversion H|contradiction]|].
        intros (_ & v' & [= <-] & Hne). apply truthy_nonempty in Hne.
        congruence.
    + split; [intros [H|H]; [inversion H|contradiction]|].
      intros (_ & v' & [=] & _).
Qed.

(** X3: the hook's two side effects beyond debug logging happen only on
    the resolution path, that is with authentication enabled, on a path
    that is not public, for a request that carries [X-User-Id].  There
    the module [keystonemiddleware.auth_token] is imported exactly when
    [X-Auth-Url] is absent, also for a request that is then rejected as
    unconfirmed, and the deprecation warning is logged exactly when
    [X-Roles] is absent and [X-Role] is present and not empty. *)
Theorem hook_side_effects (helper : AuthHelper) (CONF : Config)
  (state : State) :
  let req := request state in
  let resolving :=
    enable_authentication CONF = true
    /\ is_endpoint_public helper (path req) = None
    /\ is_Some (headers req !! "X-User-Id") in
  (ImportModule "keystonemiddleware.auth_token"
     ∈ run_events (before helper CONF state)
   <-> resolving /\ headers req !! "X-Auth-Url" = None)
  /\ (LogWarn deprecated_role_warning ∈ run_events (before helper CONF state)
      <-> resolving
          /\ headers req !! "X-Roles" = None
          /\ exists v, headers req !! "X-Role" = Some v /\ v <> "").
Proof.
  cbv zeta.
  destruct (before_cases helper CONF state)
    as [(He & ->)|[(He & [m Hp] & ->)|[(He & Hp & Hu & ->)
         |[(u & He & Hp & Hu & Hs & ->)|(u & He & Hp & Hu & Hs & ->)]]]];
    unfold run_events; cbn [snd].
  - split; (split; [intros H; inversion H|]);
      intros ((? & _) & _); congruence.
  - split; (split; [intros H; inversion H|]);
      intros ((_ & ? & _) & _); congruence.
  - split; (split;
      [intros H; apply list_elem_of_singleton in H; discriminate|]);
      intros ((_ & _ & [? ?]) & _); congruence.
  - split.
    + rewrite elem_of_app, import_in_resolution_events.
      split; [intros [H|H]|intros [_ H]; left; exact H].
      * split; [|exact H]. rewrite Hu. eauto.
      * apply list_elem_of_singleton in H. discriminate.
    + rewrite elem_of_app, warning_in_resolution_events.
      split; [intros [H|H]|intros [_ H]; left; exact H].
      * split; [|exact H]. rewrite Hu. eauto.
      * apply list_elem_of_singleton in H. discriminate.
  - split.
    + rewrite import_in_resolution_events.
      split; [intros H|intros [_ H]; exact H].
      split; [|exact H]. rewrite Hu. eauto.
    + rewrite warning_in_resolution_events.
      split; [intros H|intros [_ H]; exact H].
      split; [|exact H]. rewrite Hu. eauto.
Qed.

(** X4: on the resolution path with a confirmed identity the attached
    context is read field by field from the request: the token is
    [X-Auth-Token] and only in its absence [X-Storage-Token], the
    identity service URL is [X-Auth-Url] and only in its absence the
    configured [auth_uri]; user name and the two domain ids default to
    the empty string, tenant and domain to [None]; the token metadata is
    the [keystone.token_info] entry of the WSGI environment. *)
Theorem resolved_context_fields (helper : AuthHelper) (CONF : Config)
  (state : State) (u : string) :
  let req := request state in
  enable_authentication CONF = true ->
  is_endpoint_public helper (path req) = None ->
  headers req !! "X-User-Id" = Some u ->
  headers req !! "X-Identity-Status" = Some "Confirmed" ->
  exists ctx,
    context_after helper CONF state = Some ctx
    /\ user ctx = u
    /\ auth_token ctx
       = match headers req !! "X-Auth-Token" with
         | Some t => Some t
         | None => headers req !! "X-Storage-Token"
         end
    /\ auth_url ctx
       = match headers req !! "X-Auth-Url" with
         | Some a => Some a
         | None => keystone_authtoken_auth_uri CONF
         end
    /\ tenant ctx = headers req !! "X-Project-Id"
    /\ domain ctx = headers req !! "X-Domain-Name"
    /\ user_name ctx = default "" (headers req !! "X-User-Name")
    /\ user_domain ctx = default "" (headers req !! "X-User-Domain-Id")
    /\ project_domain ctx = default "" (headers req !! "X-Project-Domain-Id")
    /\ auth_token_info ctx = environ req !! "keystone.token_info".
Proof.
  cbv zeta. intros He Hp Hu Hs. unfold context_after.
  rewrite (before_confirmed _ _ _ u) by assumption.
  eexists. split; [reflexivity|]. repeat split; reflexivity.
Qed.

Lemma resolved_context_fields_witness :
  exists ctx,
    context_after docs_helper conf_enabled storage_token_state = Some ctx
    /\ user ctx = "u1"
    /\ auth_token ctx = Some "s3cr3t"
    /\ auth_url ctx = Some "http://keystone:35357"
    /\ tenant ctx = None
    /\ domain ctx = None
    /\ user_name ctx = ""
    /\ user_domain ctx = ""
    /\ project_domain ctx = ""
    /\ auth_token_info ctx = None.
Proof.
  apply (resolved_context_fields docs_helper conf_enabled
           storage_token_state "u1").
  - reflexivity.
  - reflexivity.
  - vm_compute. reflexivity.
  - vm_compute. reflexivity.
Defined.

(** ** The middleware wrapper *)

Lemma wrapper_run {S : Type} (helper : AuthHelper) (app : wsgi_app)
  (env : gmap string pyobj) (s : S) :
  AuthProtocolWrapper_call helper app env s
  = match env !! "PATH_INFO" with
    | Some (PyStr p) =>
        (Returned (if matched (is_endpoint_public helper p)
                   then CallApp app else CallKeystone app), s, [])
    | _ => (Raised (TypeError "expected string or buffer"), s, [])
    end.
Proof.
  unfold AuthProtocolWrapper_call, bind, dict_get, ret, raise.
  destruct (env !! "PATH_INFO") as [[p|n|b|d]|]; try reflexivity.
  destruct (matched _); reflexivity.
Qed.

(** X5: the wrapper and the hook draw the same line.  For a request
    without a context whose [PATH_INFO] is the path the hook sees, with
    authentication enabled, the wrapper hands the request to the
    application without the token check exactly when the hook lets it
    pass untouched. *)
Theorem wrapper_and_hook_agree {S : Type} (helper : AuthHelper)
  (CONF : Config) (state : State) (app : wsgi_app)
  (env : gmap string pyobj) (s : S) :
  enable_authentication CONF = true ->
  security_context (request state) = None ->
  env !! "PATH_INFO" = Some (PyStr (path (request state))) ->
  AuthProtocolWrapper_call helper app env s = (Returned (CallApp app), s, [])
  <-> before helper CONF state = (Returned tt, state, []).
Proof.
  intros He Hnone Henv. rewrite wrapper_run, Henv.
  destruct (before_cases helper CONF state)
    as [(He' & _)|[(_ & [m Hp] & ->)|[(_ & Hp & _ & ->)
         |[(u & _ & Hp & _ & _ & ->)|(u & _ & Hp & _ & _ & ->)]]]];
    [congruence| | | |]; rewrite Hp; cbn [matched];
    (split; [try discriminate; reflexivity|]); try reflexivity;
    try discriminate.
  intros [= Hst]. rewrite <- Hst in Hnone. discriminate.
Qed.

Lemma wrapper_and_hook_agree_witness :
  AuthProtocolWrapper_call docs_helper (Application "magnum") pods_env tt
  = (Returned (CallApp (Application "magnum")), tt, [])
  <-> before docs_helper conf_enabled unconfirmed_state
      = (Returned tt, unconfirmed_state, []).
Proof.
  apply (wrapper_and_hook_agree docs_helper conf_enabled unconfirmed_state
           (Application "magnum") pods_env tt).
  - reflexivity.
  - reflexivity.
  - vm_compute. reflexivity.
Defined.

(** X6: the wrapper built around the shipped helper never reaches the
    token check of its parent class: for every environment it either
    hands the request to the wrapped application or, when [PATH_INFO] is
    missing or not a string, raises [TypeError]. *)
Theorem shipped_wrapper_never_checks_tokens {S : Type} (app : wsgi_app)
  (env : gmap string pyobj) (s : S) :
  (forall p, env !! "PATH_INFO" = Some (PyStr p) ->
     AuthProtocolWrapper_call AUTH app env s
     = (Returned (CallApp app), s, []))
  /\ (forall app', run_outcome (AuthProtocolWrapper_call AUTH app env s)
                   <> Returned (CallKeystone app'))
  /\ ((forall p, env !! "PATH_INFO" <> Some (PyStr p)) ->
      AuthProtocolWrapper_call AUTH app env s
      = (Raised (TypeError "expected string or buffer"), s, [])).
Proof.
  rewrite wrapper_run. split; [|split].
  - intros p ->. rewrite AUTH_public_everywhere. reflexivity.
  - intros app'. unfold run_outcome.
    destruct (env !! "PATH_INFO") as [[p|n|b|d]|]; cbn [fst];
      discriminate.
  - intros H. destruct (env !! "PATH_INFO") as [[p|n|b|d]|];
      try reflexivity.
    exfalso. apply (H p). reflexivity.
Qed.

Lemma shipped_wrapper_never_checks_tokens_witness :
  AuthProtocolWrapper_call AUTH (Application "magnum") pods_env tt
  = (Returned (CallApp (Application "magnum")), tt, [])
  /\ AuthProtocolWrapper_call AUTH (Application "magnum") ∅ tt
     = (Raised (TypeError "expected string or buffer"), tt, []).
Proof.
  destruct (shipped_wrapper_never_checks_tokens (Application "magnum")
              pods_env tt) as (H1 & _ & _).
  destruct (shipped_wrapper_never_checks_tokens (Application "magnum")
              ∅ tt) as (_ & _ & H3).
  split.
  - apply (H1 "/v1/pods"). vm_compute. reflexivity.
  - apply H3. intros p. vm_compute. discriminate.
Defined.

(** ** The helper's pattern *)

Module ReMore.
Import Re.

Lemma star_bt_zero (a : atom) (k : string -> option string) (s : string) :
  is_Some (k s) -> is_Some (star_bt a k s).
Proof.
  intros H. destruct s as [|c s]; simpl; [exact H|].
  destruct (atom_matches a c); [|exact H].
  destruct (star_bt a k s); [eauto|exact H].
Qed.

Lemma star_bt_extend (a : atom) (k k' : string -> option string)
  (t : string) :
  (forall u, is_Some (k u) -> is_Some (k' (u +:+ t))) ->
  forall s, is_Some (star_bt a k s) -> is_Some (star_bt a k' (s +:+ t)).
Proof.
  intros Hk. induction s as [|c s IH]; intros H.
  - apply star_bt_zero. apply (Hk ""), H.
  - rewrite PyStrFacts.append_cons. simpl in *.
    destruct (atom_matches a c).
    + destruct (star_bt a k s) as [rest|].
      * destruct (IH ltac:(eauto)) as [x ->]. eauto.
      * destruct (star_bt a k' (s +:+ t)); [eauto|].
        apply (Hk (String c s)), H.
    + apply (Hk (String c s)), H.
Qed.

(** A match found in [s] is still found when [s] is followed by more
    text, provided the continuation tolerates the extra text. *)
Lemma bt_extend (r : regex) (t : string) :
  forall (k k' : string -> option string) (s : string),
    (forall u, is_Some (k u) -> is_Some (k' (u +:+ t))) ->
    is_Some (bt r k s) -> is_Some (bt r k' (s +:+ t)).
Proof.
  induction r as [|a|a|r1 IH1 r2 IH2|r1 IH1 r2 IH2]; intros k k' s Hk H.
  - apply Hk, H.
  - destruct s as [|c s]; simpl in H; [destruct H; discriminate|].
    rewrite PyStrFacts.append_cons. simpl.
    destruct (atom_matches a c); [apply Hk, H|destruct H; discriminate].
  - apply (star_bt_extend a k k' t Hk), H.
  - simpl in *. apply (IH1 (bt r2 k) (bt r2 k') s); [|exact H].
    intros u Hu. apply (IH2 k k' u Hk Hu).
  - simpl in *. destruct (bt r1 k s) as [rest|] eqn:H1.
    + destruct (IH1 k k' s Hk) as [x ->]; [rewrite H1; eauto|]. eauto.
    + destruct (bt r1 k' (s +:+ t)); [eauto|].
      apply (IH2 k k' s Hk H).
Qed.

Lemma rmatch_extend (r : regex) (s t : string) :
  is_Some (rmatch r s) -> is_Some (rmatch r (s +:+ t)).
Proof.
  rewrite !ReFacts.rmatch_is_Some. apply bt_extend. intros u _. eauto.
Qed.

Lemma bt_seq_items_cons (i : item) (l : list item)
  (k : string -> option string) (s : string) :
  bt (seq_items (i :: l)) k s = bt (item_regex i) (bt (seq_items l) k) s.
Proof. destruct l; reflexivity. Qed.

Lemma run_literal (p : string) :
  forall (al : list regex) (cu : list item),
    literal_pattern p = true ->
    run (PState (Frame al cu) [] false) p
    = Ok (PState (Frame al (rev (literal_items p) ++ cu)) [] false).
Proof.
  induction p as [|c p IH]; intros al cu H; [reflexivity|].
  simpl in H. destruct (classify c) eqn:Hc; try discriminate.
  cbn [run]. unfold step. cbn [escaped]. rewrite Hc.
  cbn [cbind on_top open_groups base]. unfold push_item.
  cbn [escaped alts cur]. rewrite (IH al _ H). cbn [literal_items rev].
  rewrite <- app_assoc. reflexivity.
Qed.

Lemma compile_literal (p : string) :
  literal_pattern p = true -> compile p = Ok (seq_items (literal_items p)).
Proof.
  intros H. unfold compile, parse, init, empty_frame.
  rewrite (run_literal p [] [] H). cbn [cbind finish escaped open_groups].
  unfold frame_branches. cbn [base cur alts cmap rev app].
  rewrite app_nil_r, rev_involutive. reflexivity.
Qed.

Lemma bt_literal (p : string) (k : string -> option string) :
  forall s,
    is_Some (bt (seq_items (literal_items p)) k s)
    <-> exists rest, s = p +:+ rest /\ is_Some (k rest).
Proof.
  induction p as [|c p IH]; intros s.
  - simpl. split; [eauto|]. intros (rest & -> & H). exact H.
  - cbn [literal_items]. rewrite bt_seq_items_cons. simpl.
    destruct s as [|c' s].
    + split; [intros [? ?]; discriminate|].
      intros (rest & Hs & _). rewrite PyStrFacts.append_cons in Hs.
      discriminate.
    + destruct (Ascii.eqb_spec c' c) as [->|Hne].
      * rewrite IH. split; intros (rest & Hs & Hk); exists rest.
        -- rewrite PyStrFacts.append_cons, <- Hs. eauto.
        -- rewrite PyStrFacts.append_cons in Hs.
           injection Hs as ->. eauto.
      * split; [intros [? ?]; discriminate|].
        intros (rest & Hs & _). rewrite PyStrFacts.append_cons in Hs.
        congruence.
Qed.

Lemma prefix_iff (p s : string) :
  String.prefix p s = true <-> exists rest, s = p +:+ rest.
Proof.
  revert s. induction p as [|c p IH]; intros s.
  - destruct s; simpl; split; eauto.
  - destruct s as [|c' s]; simpl.
    + split; [discriminate|]. intros (rest & Hs).
      rewrite PyStrFacts.append_cons in Hs. discriminate.
    + destruct (ascii_dec c c') as [->|Hne].
      * rewrite IH. split; intros (rest & Hs); exists rest.
        -- rewrite PyStrFacts.append_cons, Hs. reflexivity.
        -- rewrite PyStrFacts.append_cons in Hs. congruence.
      * split; [discriminate|]. intros (rest & Hs).
        rewrite PyStrFacts.append_cons in Hs. congruence.
Qed.

Lemma rmatch_literal (p s : string) (r : regex) :
  literal_pattern p = true -> compile p = Ok r ->
  is_Some (rmatch r s) <-> String.prefix p s = true.
Proof.
  intros Hlit Hc. rewrite (compile_literal p Hlit) in Hc.
  injection Hc as <-.
  rewrite ReFacts.rmatch_is_Some, bt_literal, prefix_iff.
  split; [intros (rest & Hs & _); eauto|intros (rest & Hs); eauto].
Qed.

End ReMore.

Lemma well_formed_parses (eps : list string) :
  well_formed_endpoints eps ->
  exists ls, Forall2 (fun pe l => Re.parse pe = Re.Ok l) eps ls.
Proof.
  induction 1 as [|pe eps [r Hr] _ [ls IH]].
  - exists []. constructor.
  - apply ReFacts.compile_inv in Hr as (l & Hl & _).
    exists (l :: ls). constructor; assumption.
Qed.

Lemma well_formed_builds (eps : list string) :
  well_formed_endpoints eps -> exists helper, AuthHelper_init eps = Re.Ok helper.
Proof.
  intros Hwf. destruct eps as [|pe eps'].
  - exists AUTH. reflexivity.
  - destruct (well_formed_parses _ Hwf) as [ls Hls].
    unfold AuthHelper_init, Re.compile.
    rewrite (ReFacts.parse_join _ ls Hls) by discriminate.
    simpl. eauto.
Qed.

(** X7: when every listed pattern compiles on its own, building the
    helper never fails.  From a list that is not empty the helper calls a
    path public exactly when one of the listed patterns matches a prefix
    of the path; from the empty list it calls every path public. *)
Theorem helper_from_valid_patterns (eps : list string) :
  well_formed_endpoints eps ->
  exists helper,
    AuthHelper_init eps = Re.Ok helper
    /\ forall path,
         is_Some (is_endpoint_public helper path)
         <-> eps = [] \/ matches_public_endpoint eps path.
Proof.
  intros Hwf. destruct (well_formed_builds eps Hwf) as [helper Hinit].
  exists helper. split; [exact Hinit|]. intros path.
  destruct eps as [|pe eps'].
  - injection Hinit as <-. rewrite AUTH_public_everywhere.
    split; [intros _; left; reflexivity|eauto].
  - rewrite (public_iff_pattern_matches (pe :: eps') helper path)
      by (assumption || discriminate).
    split; [eauto|]. intros [?|?]; [discriminate|assumption].
Qed.

Lemma helper_from_valid_patterns_witness :
  exists helper,
    AuthHelper_init docs_endpoints = Re.Ok helper
    /\ forall path,
         is_Some (is_endpoint_public helper path)
         <-> docs_endpoints = []
             \/ matches_public_endpoint docs_endpoints path.
Proof.
  apply (helper_from_valid_patterns docs_endpoints).
  constructor; [|constructor]. eexists. reflexivity.
Defined.

(** X8: the public test looks at the beginning of the path only.
    Whatever pattern the helper holds, a path that is public stays public
    with anything appended to it. *)
Theorem public_paths_extend (helper : AuthHelper) (path suffix : string) :
  is_Some (is_endpoint_public helper path) ->
  is_Some (is_endpoint_public helper (path +:+ suffix)).
Proof. unfold is_endpoint_public. apply ReMore.rmatch_extend. Qed.

Lemma public_paths_extend_witness :
  is_Some (is_endpoint_public docs_helper ("/public" +:+ "ity/../v1/pods")).
Proof.
  apply (public_paths_extend docs_helper "/public" "ity/../v1/pods").
  eexists. reflexivity.
Defined.

(** X9: a list of plain patterns, ones without any character the pattern
    syntax gives a meaning to, always builds a helper, and the helper
    calls a path public exactly when the path starts with one of the
    listed strings. *)
Theorem plain_patterns_are_prefixes (eps : list string) :
  eps <> [] ->
  Forall (fun pe => literal_pattern pe = true) eps ->
  exists helper,
    AuthHelper_init eps = Re.Ok helper
    /\ forall path,
         is_Some (is_endpoint_public helper path)
         <-> exists pe, pe ∈ eps /\ String.prefix pe path = true.
Proof.
  intros Hne Hlit.
  assert (well_formed_endpoints eps) as Hwf.
  { eapply Forall_impl; [exact Hlit|]. intros pe H.
    eexists. apply ReMore.compile_literal, H. }
  destruct (well_formed_builds eps Hwf) as [helper Hinit].
  exists helper. split; [exact Hinit|]. intros path.
  rewrite (public_iff_pattern_matches eps helper path) by assumption.
  rewrite Forall_forall in Hlit.
  split.
  - intros (pe & r & Hin & Hc & Hm). exists pe. split; [exact Hin|].
    eapply ReMore.rmatch_literal; eauto.
  - intros (pe & Hin & Hpre).
    exists pe, (Re.seq_items (literal_items pe)). split; [exact Hin|].
    split; [apply ReMore.compile_literal; auto|].
    eapply ReMore.rmatch_literal; eauto using ReMore.compile_literal.
Qed.

Lemma plain_patterns_are_prefixes_witness :
  exists helper,
    AuthHelper_init plain_endpoints = Re.Ok helper
    /\ forall path,
         is_Some (is_endpoint_public helper path)
         <-> exists pe, pe ∈ plain_endpoints /\ String.prefix pe path = true.
Proof.
  apply (plain_patterns_are_prefixes plain_endpoints).
  - discriminate.
  - repeat constructor.
Defined.

(** ** Role lists *)

Module RoleFacts.
Import PyStr.

Lemma mem_char_app (c : ascii) (a b : string) :
  mem_char c (a +:+ b) = (mem_char c a || mem_char c b)%bool.
Proof.
  induction a as [|d a IH]; [reflexivity|].
  rewrite PyStrFacts.append_cons. simpl. rewrite IH, orb_assoc.
  reflexivity.
Qed.

Lemma strip_keeps_out (c : ascii) (w : string) :
  mem_char c w = false -> mem_char c (strip w) = false.
Proof.
  destruct (PyStrFacts.strip_trimmed w) as (a & b & Hw & _).
  intros H. rewrite Hw, !mem_char_app in H.
  apply orb_false_iff in H as [_ H]. apply orb_false_iff in H as [H _].
  exact H.
Qed.

Lemma strip_clean (w : string) :
  mem_char "," w = false -> clean_role (strip w).
Proof.
  intros H. destruct (PyStrFacts.strip_trimmed w) as (a & b & _ & _ & _ & Hf & Hl).
  split; [apply strip_keeps_out, H|]. split; assumption.
Qed.

Lemma length_split (sep : ascii) (s : string) :
  length (split sep s) = S (count_char sep s).
Proof.
  induction s as [|c s IH]; [reflexivity|]. simpl.
  destruct (Ascii.eqb c sep); simpl; [rewrite IH; reflexivity|].
  destruct (split sep s); simpl in *; [discriminate|exact IH].
Qed.

Lemma spaces_hold_no_comma (ws : string) :
  all_space ws = true -> mem_char "," ws = false.
Proof.
  induction ws as [|c ws IH]; [reflexivity|]. simpl.
  intros [Hc Hws]%andb_true_iff. rewrite (IH Hws), orb_false_r.
  destruct (Ascii.eqb_spec c ","%char) as [->|]; [discriminate Hc|reflexivity].
Qed.

Lemma strip_clean_id (r : string) : clean_role r -> strip r = r.
Proof.
  intros (_ & Hf & Hl). unfold strip.
  rewrite PyStrFacts.lstrip_id by exact Hf. apply PyStrFacts.rstrip_id, Hl.
Qed.

Lemma strip_spaces_clean (ws r : string) :
  all_space ws = true -> clean_role r -> strip (ws +:+ r) = r.
Proof.
  intros Hws Hr. unfold strip. rewrite PyStrFacts.lstrip_spaces by exact Hws.
  apply (strip_clean_id r Hr).
Qed.

Lemma append_assoc (a b c : string) : (a +:+ b) +:+ c = a +:+ b +:+ c.
Proof.
  induction a as [|d a IH]; [reflexivity|].
  rewrite !PyStrFacts.append_cons, IH. reflexivity.
Qed.

Lemma join_head_app (sep a x : string) (l : list string) :
  join sep ((a +:+ x) :: l) = a +:+ join sep (x :: l).
Proof.
  destruct l as [|y l]; [reflexivity|].
  change (join sep ((a +:+ x) :: y :: l))
    with ((a +:+ x) +:+ sep +:+ join sep (y :: l)).
  change (join sep (x :: y :: l)) with (x +:+ sep +:+ join sep (y :: l)).
  apply append_assoc.
Qed.

(** Joining with a comma followed by blanks is joining with a comma the
    first field and the other fields with the blanks put in front. *)
Lemma join_padded (ws r : string) (rs : list string) :
  join (String "," ws) (r :: rs)
  = join "," (r :: map (fun x => ws +:+ x) rs).
Proof.
  revert r. induction rs as [|r' rs IH]; intros r; [reflexivity|].
  change (join (String "," ws) (r :: r' :: rs))
    with (r +:+ String "," ws +:+ join (String "," ws) (r' :: rs)).
  rewrite IH.
  change (map (fun x => ws +:+ x) (r' :: rs))
    with ((ws +:+ r') :: map (fun x => ws +:+ x) rs).
  rewrite (PyStrFacts.join_cons "," r) by discriminate.
  rewrite join_head_app, PyStrFacts.append_cons. reflexivity.
Qed.

End RoleFacts.

(** X10: [_get_roles] always returns, leaves the store alone, and the
    list it returns is never empty; each role in it is free of commas
    and of whitespace at either end.  When [X-Roles] is present the list
    has one role more than the header value has commas. *)
Theorem get_roles_output {S : Type} (req : Request) (s : S) :
  exists rs,
    run_outcome (_get_roles req s) = Returned rs
    /\ run_store (_get_roles req s) = s
    /\ rs <> []
    /\ Forall clean_role rs
    /\ forall v, headers req !! "X-Roles" = Some v ->
                 length rs = 1 + count_char "," v.
Proof.
  rewrite get_roles_run. eexists. split; [reflexivity|].
  split; [reflexivity|]. split; [|split].
  - pose proof (PyStrFacts.split_nonempty "," (role_header req)) as H.
    destruct (PyStr.split "," (role_header req)); [congruence|discriminate].
  - pose proof (PyStrFacts.split_no_sep "," (role_header req)) as H.
    induction H; simpl; constructor;
      [apply RoleFacts.strip_clean; assumption|assumption].
  - intros v Hv. rewrite length_map, RoleFacts.length_split.
    unfold role_header, dict_contains. rewrite Hv. reflexivity.
Qed.

Lemma get_roles_output_witness :
  exists rs,
    run_outcome (_get_roles joined_roles_request tt) = Returned rs
    /\ run_store (_get_roles joined_roles_request tt) = tt
    /\ rs <> []
    /\ Forall clean_role rs
    /\ length rs = 3.
Proof.
  destruct (get_roles_output joined_roles_request tt)
    as (rs & Ho & Hs & Hne & Hc & Hl).
  exists rs. repeat split; try assumption.
  apply (Hl "admin, member, "). vm_compute. reflexivity.
Defined.

(** X11: a request that carries neither [X-Roles] nor [X-Role] gets the
    role list with the one empty role, not the empty list, and no
    deprecation warning is logged. *)
Theorem get_roles_without_headers {S : Type} (req : Request) (s : S) :
  headers req !! "X-Roles" = None ->
  headers req !! "X-Role" = None ->
  _get_roles req s = (Returned [""], s, []).
Proof.
  intros H1 H2. rewrite get_roles_run.
  unfold role_header, role_events, dict_contains. rewrite H1, H2.
  reflexivity.
Qed.

Lemma get_roles_without_headers_witness :
  _get_roles roleless_request tt = (Returned [""], tt, []).
Proof.
  apply (get_roles_without_headers roleless_request tt).
  - vm_compute. reflexivity.
  - vm_compute. reflexivity.
Defined.

(** X12: a role list written into [X-Roles] comes back unchanged.  For
    every list of clean roles that is not empty, joined with a comma and
    any run of whitespace after it, [_get_roles] returns that very list,
    without any event. *)
Theorem roles_round_trip {S : Type} (req : Request) (rs : list string)
  (ws : string) (s : S) :
  rs <> [] ->
  Forall clean_role rs ->
  PyStr.all_space ws = true ->
  headers req !! "X-Roles" = Some (PyStr.join (String "," ws) rs) ->
  _get_roles req s = (Returned rs, s, []).
Proof.
  intros Hne Hclean Hws Hh. rewrite get_roles_run.
  unfold role_header, role_events, dict_contains. rewrite Hh.
  unfold default. cbn [from_option id]. f_equal. f_equal. f_equal.
  destruct rs as [|r rs]; [congruence|].
  inversion Hclean as [|? ? Hr Hrs]; subst.
  rewrite RoleFacts.join_padded.
  assert (Forall (fun w => PyStr.mem_char "," w = false)
            (r :: map (fun x => ws +:+ x) rs)) as Hfields.
  { constructor; [apply Hr|]. apply Forall_map.
    eapply Forall_impl; [exact Hrs|]. intros x (Hx & _). cbn beta.
    rewrite RoleFacts.mem_char_app, Hx,
      (RoleFacts.spaces_hold_no_comma ws Hws). reflexivity. }
  assert (r :: map (fun x => ws +:+ x) rs <> []) as Hcons by discriminate.
  rewrite (PyStrFacts.split_join "," _ Hcons Hfields).
  cbn [map]. rewrite (RoleFacts.strip_clean_id r Hr). f_equal.
  rewrite map_map. clear Hne Hh Hclean Hr Hfields Hcons.
  induction Hrs as [|x xs Hx _ IH]; [reflexivity|].
  cbn [map]. rewrite (RoleFacts.strip_spaces_clean ws x Hws Hx), IH.
  reflexivity.
Qed.

Lemma roles_round_trip_witness :
  _get_roles joined_roles_request tt
  = (Returned ["admin"; "member"; ""], tt, []).
Proof.
  apply (roles_round_trip joined_roles_request ["admin"; "member"; ""]
           " " tt).
  - discriminate.
  - repeat constructor; intros c [=]; subst; reflexivity.
  - reflexivity.
  - vm_compute. reflexivity.
Defined.

(** ** Routing of the pod listing *)

Module PodsFacts.
Import PyStr PodsController.

Lemma split_app_sep (sep : ascii) (a b : string) :
  split sep (a +:+ String sep b) = split sep a ++ split sep b.
Proof.
  induction a as [|c a IH].
  - simpl. rewrite Ascii.eqb_refl. reflexivity.
  - rewrite PyStrFacts.append_cons. simpl. rewrite IH.
    destruct (Ascii.eqb c sep); [reflexivity|].
    pose proof (PyStrFacts.split_nonempty sep a) as Hne.
    destruct (split sep a) as [|w ws]; [congruence|reflexivity].
Qed.

Lemma mem_char_count (c : ascii) (s : string) :
  mem_char c s = false <-> count_char c s = 0.
Proof.
  induction s as [|d s IH]; simpl; [tauto|].
  destruct (Ascii.eqb d c); simpl; [split; discriminate|exact IH].
Qed.

Lemma join_app (sep : string) (l1 l2 : list string) :
  l1 <> [] -> l2 <> [] ->
  join sep (l1 ++ l2) = join sep l1 +:+ sep +:+ join sep l2.
Proof.
  intros H1 H2. induction l1 as [|x l1 IH]; [congruence|].
  destruct l1 as [|y l1].
  - destruct l2; [congruence|reflexivity].
  - change (join sep ((x :: y :: l1) ++ l2))
      with (x +:+ sep +:+ join sep ((y :: l1) ++ l2)).
    rewrite IH by discriminate.
    change (join sep (x :: y :: l1)) with (x +:+ sep +:+ join sep (y :: l1)).
    rewrite !RoleFacts.append_assoc. reflexivity.
Qed.

(** The segments of a path under [pods]. *)
Lemma split_under_pods (path : string) :
  under_pods path <->
  exists segs x, split "/" path = segs ++ ["pods"; x].
Proof.
  split.
  - intros (pre & x & Hx & [->| ->]).
    + exists [], x.
      change ("pods/" +:+ x) with ("pods" +:+ String "/" x).
      rewrite split_app_sep, (PyStrFacts.split_last_field "/" x Hx).
      reflexivity.
    + exists (split "/" pre), x.
      change (pre +:+ "/pods/" +:+ x)
        with (pre +:+ String "/" ("pods" +:+ String "/" x)).
      rewrite !split_app_sep, (PyStrFacts.split_last_field "/" x Hx).
      reflexivity.
  - intros (segs & x & Hsplit).
    pose proof (PyStrFacts.join_split "/" path) as Hjoin.
    pose proof (PyStrFacts.split_no_sep "/" path) as Hno.
    rewrite Hsplit in Hjoin, Hno.
    apply Forall_app in Hno as [_ Hno].
    apply Forall_cons in Hno as [_ Hno].
    apply Forall_cons in Hno as [Hx _].
    destruct segs as [|s0 segs].
    + exists "", x. split; [exact Hx|]. left. rewrite <- Hjoin. reflexivity.
    + exists (join "/" (s0 :: segs)), x. split; [exact Hx|]. right.
      rewrite <- Hjoin.
      rewrite (join_app "/" (s0 :: segs) ["pods"; x]) by discriminate.
      reflexivity.
Qed.

End PodsFacts.

(** X13: [detail] serves a request only when the last but one segment
    of the request path is [pods]: then it asks for the collection with
    [expand] set and the resource URL [pods/detail], passing marker,
    limit and sort arguments through.  Any other path that holds a slash
    is answered with [HTTPNotFound], and a path without a slash makes the
    index into the empty list fail with [IndexError]. *)
Theorem detail_serves_only_under_pods {A : Type}
  (collection : option string -> option Z -> string -> string -> bool ->
                option string -> PodsController.reply A)
  (request_path : string) (pod_uuid marker : option string)
  (limit : option Z) (sort_key sort_dir : string) :
  let answer :=
    PodsController.detail collection request_path pod_uuid marker limit
      sort_key sort_dir in
  (PodsController.under_pods request_path ->
   answer = collection marker limit sort_key sort_dir true
              (Some "pods/detail"))
  /\ (~ PodsController.under_pods request_path ->
      PyStr.mem_char "/" request_path = true ->
      answer = PodsController.Failed PodsController.HTTPNotFound)
  /\ (PyStr.mem_char "/" request_path = false ->
      answer = PodsController.Failed
                 (PodsController.IndexError "list index out of range")).
Proof.
  cbv zeta. unfold PodsController.detail, PodsController.last_item.
  split; [|split].
  - intros (segs & x & ->)%PodsFacts.split_under_pods.
    rewrite removelast_app by discriminate. cbn [removelast].
    rewrite last_snoc. reflexivity.
  - intros Hnot Hslash.
    pose proof (RoleFacts.length_split "/" request_path) as Hlen.
    destruct (PyStr.split "/" request_path) as [|x l] eqn:Hsplit
      using rev_ind; [discriminate|].
    clear IHl. destruct l as [|parent l _] using rev_ind.
    { simpl in Hlen. injection Hlen as Hlen. symmetry in Hlen.
      apply PodsFacts.mem_char_count in Hlen. congruence. }
    rewrite removelast_last, last_snoc.
    destruct (String.eqb_spec parent "pods") as [->|Hne]; [|reflexivity].
    exfalso. apply Hnot, PodsFacts.split_under_pods.
    exists l, x. rewrite Hsplit, <- app_assoc. reflexivity.
  - intros Hslash.
    rewrite (PyStrFacts.split_last_field "/" request_path Hslash).
    reflexivity.
Qed.

Lemma detail_serves_only_under_pods_witness :
  PodsController.detail PodsController.echo_collection "/v1/pods/detail"
    None None None "id" "asc"
  = PodsController.Replied (true, Some "pods/detail")
  /\ PodsController.detail PodsController.echo_collection "/v1/bays/detail"
       None None None "id" "asc"
     = PodsController.Failed PodsController.HTTPNotFound
  /\ PodsController.detail PodsController.echo_collection "detail"
       None None None "id" "asc"
     = PodsController.Failed
         (PodsController.IndexError "list index out of range").
Proof.
  split; [|split].
  - apply (detail_serves_only_under_pods PodsController.echo_collection
             "/v1/pods/detail" None None None "id" "asc").
    exists "/v1", "detail". split; [reflexivity|]. right. reflexivity.
  - apply (detail_serves_only_under_pods PodsController.echo_collection
             "/v1/bays/detail" None None None "id" "asc");
      [|reflexivity].
    intros (segs & x & H)%PodsFacts.split_under_pods.
    change (PyStr.split "/" "/v1/bays/detail")
      with [""; "v1"; "bays"; "detail"] in H.
    destruct segs as [|s0 [|s1 [|s2 [|s3 segs]]]]; simpl in H;
      try discriminate H.
    injection H as _ _ _ _ H. destruct segs; discriminate H.
  - apply (detail_serves_only_under_pods PodsController.echo_collection
             "detail" None None None "id" "asc").
    reflexivity.
Defined.

(** ** Installing the middleware *)

(** X14: [install] reads its two keys with [get], so a missing key is
    not an error of its own.  Without [enable_authentication] the
    application comes back bare with the one warning, as if the option
    were false; with the option true and a [keystone_authtoken] section
    the application comes back wrapped with a copy of that section and
    nothing is logged; with the option true and no such section
    [install] raises [TypeError].  It never returns anything but the
    application or a wrapper around it, and never changes the store. *)
Theorem install_missing_keys {S : Type} (app : wsgi_app)
  (conf : gmap string pyobj) (s : S) :
  (conf !! "enable_authentication" = None ->
   install app conf s = (Returned app, s, [LogWarning install_warning]))
  /\ (forall d,
        truth_value (conf !! "enable_authentication") = true ->
        conf !! "keystone_authtoken" = Some (PyDict d) ->
        install app conf s = (Returned (AuthProtocolWrapper app d), s, []))
  /\ (truth_value (conf !! "enable_authentication") = true ->
      conf !! "keystone_authtoken" = None ->
      install app conf s
      = (Raised (TypeError "'NoneType' object is not iterable"), s, []))
  /\ (forall a, run_outcome (install app conf s) = Returned a ->
        a = app \/ exists d, a = AuthProtocolWrapper app d)
  /\ run_store (install app conf s) = s.
Proof.
  unfold install, bind, dict_get, ret, emit, py_dict, raise, OPT_GROUP_NAME,
    run_outcome, run_store.
  split; [|split; [|split; [|split]]].
  - intros ->. reflexivity.
  - intros d -> ->. reflexivity.
  - intros -> ->. reflexivity.
  - intros a.
    destruct (truth_value (conf !! "enable_authentication"));
      cbn [fst snd]; [|intros [= <-]; left; reflexivity].
    destruct (conf !! "keystone_authtoken") as [[[|c g]|n|b|d]|];
      cbn [fst snd]; try discriminate; intros [= <-]; right; eauto.
  - destruct (truth_value (conf !! "enable_authentication"));
      cbn [fst snd]; [|reflexivity].
    destruct (conf !! "keystone_authtoken") as [[[|c g]|n|b|d]|];
      reflexivity.
Qed.

Lemma install_missing_keys_witness :
  install (Application "magnum") ∅ tt
  = (Returned (Application "magnum"), tt, [LogWarning install_warning])
  /\ install (Application "magnum") conf_with_group tt
     = (Returned (AuthProtocolWrapper (Application "magnum")
                    [("auth_uri", PyStr "http://keystone")]), tt, [])
  /\ install (Application "magnum") conf_without_group tt
     = (Raised (TypeError "'NoneType' object is not iterable"), tt, []).
Proof.
  split; [|split].
  - apply (install_missing_keys (Application "magnum") ∅ tt).
    reflexivity.
  - apply (install_missing_keys (Application "magnum") conf_with_group tt);
      vm_compute; reflexivity.
  - apply (install_missing_keys (Application "magnum") conf_without_group
             tt); vm_compute; reflexivity.
Defined.
